(** * Shared Travel Planner: access control, sharing and trip aggregation

    A shallow embedding of [app/models.py], [app/schemas.py] and
    [app/main.py].  Tables are lists of rows in insertion order, the
    request handlers are written in a state-and-exception monad over the
    database, and the route table [app] attaches the status code of each
    route decorator. *)

From Stdlib Require Import ZArith List String Bool Lia.
Import ListNotations.
Local Open Scope string_scope.
Local Open Scope list_scope.
Local Open Scope Z_scope.

(** ** Values

    Python [int] is [Z]; [datetime] and [date] values are kept as the
    integers that order them (seconds and days); [str] is [string] and
    [Optional[T]] is [option T]. *)

Definition datetime := Z.
Definition date := Z.

Definition option_Z_eqb (a b : option Z) : bool :=
  match a, b with
  | Some x, Some y => x =? y
  | None, None => true
  | _, _ => false
  end.

(** ** models.py *)

Module TripShare.
Record t : Type := Build
  { trip_id : Z;
    user_id : Z;
    created_at : datetime }.
End TripShare.

Module User.
Record t : Type := Build
  { id : Z;
    email : string;
    hashed_password : string;
    created_at : datetime }.
End User.

Module Trip.
Record t : Type := Build
  { id : Z;
    name : string;
    owner_id : Z;
    start_date : option date;
    end_date : option date;
    created_at : datetime }.

(* Equality of two model instances compares their field dictionaries. *)
Definition eqb (a b : t) : bool :=
  (id a =? id b) && String.eqb (name a) (name b) && (owner_id a =? owner_id b)
  && option_Z_eqb (start_date a) (start_date b)
  && option_Z_eqb (end_date a) (end_date b)
  && (created_at a =? created_at b).
End Trip.

Module Flight.
Record t : Type := Build
  { id : Z;
    trip_id : Z;
    airline : string;
    departure_airport : string;
    arrival_airport : string;
    departure_time : datetime;
    arrival_time : datetime }.
End Flight.

Module Hotel.
Record t : Type := Build
  { id : Z;
    trip_id : Z;
    name : string;
    city : string;
    check_in : date;
    check_out : date }.
End Hotel.

(** ** schemas.py *)

Module UserCreate.
Record t : Type := Build { email : string; password : string }.
End UserCreate.

Module Token.
Record t : Type := Build { access_token : string; token_type : string }.
End Token.

Module UserRead.
Record t : Type := Build { id : Z; email : string }.
End UserRead.

Module FlightCreate.
Record t : Type := Build
  { airline : string;
    departure_airport : string;
    arrival_airport : string;
    departure_time : datetime;
    arrival_time : datetime }.
End FlightCreate.

Module HotelCreate.
Record t : Type := Build
  { name : string; city : string; check_in : date; check_out : date }.
End HotelCreate.

Module TripCreate.
Record t : Type := Build
  { name : string;
    start_date : option date;
    end_date : option date;
    flights : list FlightCreate.t;
    hotels : list HotelCreate.t }.
End TripCreate.

Module FlightRead.
Record t : Type := Build
  { id : Z;
    airline : string;
    departure_airport : string;
    arrival_airport : string;
    departure_time : datetime;
    arrival_time : datetime }.

(* A [Flight] row placed in a [FlightRead] field keeps the declared
   fields; [trip_id] is not one of them. *)
Definition of_row (f : Flight.t) : t :=
  Build (Flight.id f) (Flight.airline f) (Flight.departure_airport f)
        (Flight.arrival_airport f) (Flight.departure_time f)
        (Flight.arrival_time f).
End FlightRead.

Module HotelRead.
Record t : Type := Build
  { id : Z; name : string; city : string; check_in : date; check_out : date }.

Definition of_row (h : Hotel.t) : t :=
  Build (Hotel.id h) (Hotel.name h) (Hotel.city h) (Hotel.check_in h)
        (Hotel.check_out h).
End HotelRead.

Module TripRead.
Record t : Type := Build
  { id : Z;
    name : string;
    owner_id : Z;
    start_date : option date;
    end_date : option date;
    flights : list FlightRead.t;
    hotels : list HotelRead.t;
    shared_with_user_ids : list Z }.
End TripRead.

Module ShareRequest.
Record t : Type := Build { email : string }.
End ShareRequest.

Module OAuth2PasswordRequestForm.
Record t : Type := Build { username : string; password : string }.
End OAuth2PasswordRequestForm.

(** ** The database behind a session *)

Record Database : Type := mkDatabase
  { users : list User.t;
    trips : list Trip.t;
    flights : list Flight.t;
    hotels : list Hotel.t;
    shares : list TripShare.t }.

Definition empty_db : Database := mkDatabase [] [] [] [] [].

(* An integer primary key left at [None] is filled in by the store with
   the successor of the largest key of the table (1 in an empty table). *)
Definition next_id (ids : list Z) : Z := Z.succ (fold_right Z.max 0 ids).

(** ** Handlers: state over the database, exceptions as results *)

Record HTTPException : Type := mkHTTPException
  { status_code : Z; detail : string }.

Inductive result (A : Type) : Type :=
| Return (a : A)
| Raise (e : HTTPException).
Arguments Return {A} a.
Arguments Raise {A} e.

Definition Handler (A : Type) : Type := Database -> Database * result A.

Definition ret {A} (a : A) : Handler A := fun db => (db, Return a).

Definition raise {A} (e : HTTPException) : Handler A := fun db => (db, Raise e).

Definition bind {A B} (m : Handler A) (k : A -> Handler B) : Handler B :=
  fun db =>
    match m db with
    | (db', Return a) => k a db'
    | (db', Raise e) => (db', Raise e)
    end.

Definition get_session : Handler Database := fun db => (db, Return db).

Notation "x <- m ;; k" := (bind m (fun x => k))
  (at level 61, m at next level, right associativity).
Notation "m ;;; k" := (bind m (fun _ => k))
  (at level 61, right associativity).

Definition HTTP_200_OK : Z := 200.
Definition HTTP_201_CREATED : Z := 201.
Definition HTTP_204_NO_CONTENT : Z := 204.
Definition HTTP_400_BAD_REQUEST : Z := 400.
Definition HTTP_401_UNAUTHORIZED : Z := 401.
Definition HTTP_403_FORBIDDEN : Z := 403.
Definition HTTP_404_NOT_FOUND : Z := 404.
Definition HTTP_500_INTERNAL_SERVER_ERROR : Z := 500.

(** ** Queries and inserts of main.py, one per statement shape *)

(* select(User).where(User.email == email) ... .first() *)
Definition select_User_by_email (session : Database) (email : string)
  : option User.t :=
  find (fun u => String.eqb (User.email u) email) (users session).

(* session.get(Trip, trip_id) *)
Definition session_get_Trip (session : Database) (trip_id : Z)
  : option Trip.t :=
  find (fun t => Trip.id t =? trip_id) (trips session).

(* select(TripShare).where(trip_id == ..., user_id == ...) ... .first() *)
Definition select_TripShare (session : Database) (trip_id user_id : Z)
  : option TripShare.t :=
  find (fun s => (TripShare.trip_id s =? trip_id)
                 && (TripShare.user_id s =? user_id)) (shares session).

(* session.add(User(email=..., hashed_password=...)); commit; refresh *)
Definition add_User (now : datetime) (email hashed_password : string)
  : Handler User.t :=
  fun db =>
    let user := User.Build (next_id (map User.id (users db))) email
                           hashed_password now in
    (mkDatabase (users db ++ [user]) (trips db) (flights db) (hotels db)
                (shares db),
     Return user).

(* session.add(Trip(...)); commit; refresh *)
Definition add_Trip (now : datetime) (name : string) (owner_id : Z)
  (start_date end_date : option date) : Handler Trip.t :=
  fun db =>
    let trip := Trip.Build (next_id (map Trip.id (trips db))) name owner_id
                           start_date end_date now in
    (mkDatabase (users db) (trips db ++ [trip]) (flights db) (hotels db)
                (shares db),
     Return trip).

(* session.add(Flight(trip_id=trip_id, **flight.dict())); commit *)
Definition add_Flight (trip_id : Z) (flight : FlightCreate.t)
  : Handler Flight.t :=
  fun db =>
    let row := Flight.Build (next_id (map Flight.id (flights db))) trip_id
                 (FlightCreate.airline flight)
                 (FlightCreate.departure_airport flight)
                 (FlightCreate.arrival_airport flight)
                 (FlightCreate.departure_time flight)
                 (FlightCreate.arrival_time flight) in
    (mkDatabase (users db) (trips db) (flights db ++ [row]) (hotels db)
                (shares db),
     Return row).

(* session.add(Hotel(trip_id=trip_id, **hotel.dict())); commit *)
Definition add_Hotel (trip_id : Z) (hotel : HotelCreate.t)
  : Handler Hotel.t :=
  fun db =>
    let row := Hotel.Build (next_id (map Hotel.id (hotels db))) trip_id
                 (HotelCreate.name hotel) (HotelCreate.city hotel)
                 (HotelCreate.check_in hotel) (HotelCreate.check_out hotel) in
    (mkDatabase (users db) (trips db) (flights db) (hotels db ++ [row])
                (shares db),
     Return row).

(* session.add(TripShare(...)); commit *)
Definition add_TripShare (share : TripShare.t) : Handler unit :=
  fun db =>
    (mkDatabase (users db) (trips db) (flights db) (hotels db)
                (shares db ++ [share]),
     Return tt).

(* The rows of a list comprehension over the request, added in order. *)
Fixpoint add_all {A B} (add : A -> Handler B) (xs : list A)
  : Handler (list B) :=
  match xs with
  | [] => ret []
  | x :: xs' =>
      row <- add x ;;
      rows <- add_all add xs' ;;
      ret (row :: rows)
  end.

(** ** main.py *)

Definition _fetch_flights (session : Database) (trip_id : Z) : list Flight.t :=
  filter (fun f => Flight.trip_id f =? trip_id) (flights session).

Definition _fetch_hotels (session : Database) (trip_id : Z) : list Hotel.t :=
  filter (fun h => Hotel.trip_id h =? trip_id) (hotels session).

Definition _fetch_share_ids (session : Database) (trip_id : Z) : list Z :=
  map TripShare.user_id
      (filter (fun s => TripShare.trip_id s =? trip_id) (shares session)).

Definition _user_has_access (session : Database) (user_id trip_id : Z) : bool :=
  match select_TripShare session trip_id user_id with
  | Some _ => true
  | None => false
  end.

Definition _ensure_trip_access (user_id trip_id : Z) : Handler unit :=
  session <- get_session ;;
  match session_get_Trip session trip_id with
  | None => raise (mkHTTPException HTTP_404_NOT_FOUND "Trip not found")
  | Some trip =>
      if negb (Trip.owner_id trip =? user_id)
         && negb (_user_has_access session user_id trip_id)
      then raise (mkHTTPException HTTP_403_FORBIDDEN
                                  "Not authorized for this trip")
      else ret tt
  end.

Definition _trip_to_read (trip : Trip.t) (flights : list Flight.t)
  (hotels : list Hotel.t) (shared_ids : list Z) : TripRead.t :=
  TripRead.Build (Trip.id trip) (Trip.name trip) (Trip.owner_id trip)
                 (Trip.start_date trip) (Trip.end_date trip)
                 (map FlightRead.of_row flights) (map HotelRead.of_row hotels)
                 shared_ids.

Section Routes.

(** [app/auth.py] is outside the modelled files: its password hashing,
    hash verification and token issuing are parameters.  The dependency
    [get_current_user] hands each protected handler its [current_user];
    the handlers below take that user as the source functions do. *)
Variable get_password_hash : string -> string.
Variable verify_password : string -> string -> bool.
Variable create_access_token : Z -> string.

Definition register (now : datetime) (user_create : UserCreate.t)
  : Handler UserRead.t :=
  session <- get_session ;;
  match select_User_by_email session (UserCreate.email user_create) with
  | Some _ =>
      raise (mkHTTPException HTTP_400_BAD_REQUEST "Email already registered")
  | None =>
      let hashed_password :=
        get_password_hash (UserCreate.password user_create) in
      user <- add_User now (UserCreate.email user_create) hashed_password ;;
      ret (UserRead.Build (User.id user) (User.email user))
  end.

Definition login (form_data : OAuth2PasswordRequestForm.t)
  : Handler Token.t :=
  session <- get_session ;;
  match select_User_by_email session
          (OAuth2PasswordRequestForm.username form_data) with
  | None =>
      raise (mkHTTPException HTTP_401_UNAUTHORIZED
                             "Incorrect email or password")
  | Some user =>
      if negb (verify_password (OAuth2PasswordRequestForm.password form_data)
                               (User.hashed_password user))
      then raise (mkHTTPException HTTP_401_UNAUTHORIZED
                                  "Incorrect email or password")
      else ret (Token.Build (create_access_token (User.id user)) "bearer")
  end.

Definition create_trip (now : datetime) (trip_create : TripCreate.t)
  (current_user : User.t) : Handler TripRead.t :=
  trip <- add_Trip now (TripCreate.name trip_create) (User.id current_user)
                   (TripCreate.start_date trip_create)
                   (TripCreate.end_date trip_create) ;;
  flights <- add_all (add_Flight (Trip.id trip))
                     (TripCreate.flights trip_create) ;;
  hotels <- add_all (add_Hotel (Trip.id trip))
                    (TripCreate.hotels trip_create) ;;
  ret (_trip_to_read trip flights hotels []).

Definition list_trips (current_user : User.t) : Handler (list TripRead.t) :=
  session <- get_session ;;
  let owned_trips :=
    filter (fun t => Trip.owner_id t =? User.id current_user)
           (trips session) in
  let shared_trip_ids :=
    map TripShare.trip_id
        (filter (fun s => TripShare.user_id s =? User.id current_user)
                (shares session)) in
  let shared_trips :=
    match shared_trip_ids with
    | [] => []
    | _ :: _ =>
        filter (fun t => existsb (Z.eqb (Trip.id t)) shared_trip_ids)
               (trips session)
    end in
  let trips :=
    owned_trips
    ++ filter (fun trip => negb (existsb (Trip.eqb trip) owned_trips))
              shared_trips in
  ret (map (fun trip =>
              _trip_to_read trip (_fetch_flights session (Trip.id trip))
                            (_fetch_hotels session (Trip.id trip))
                            (_fetch_share_ids session (Trip.id trip)))
           trips).

Definition get_trip (trip_id : Z) (current_user : User.t)
  : Handler TripRead.t :=
  session <- get_session ;;
  match session_get_Trip session trip_id with
  | None => raise (mkHTTPException HTTP_404_NOT_FOUND "Trip not found")
  | Some trip =>
      if negb (Trip.owner_id trip =? User.id current_user)
         && negb (_user_has_access session (User.id current_user) trip_id)
      then raise (mkHTTPException HTTP_403_FORBIDDEN
                                  "Not authorized to view this trip")
      else ret (_trip_to_read trip (_fetch_flights session trip_id)
                              (_fetch_hotels session trip_id)
                              (_fetch_share_ids session trip_id))
  end.

Definition share_trip (now : datetime) (trip_id : Z)
  (share_request : ShareRequest.t) (current_user : User.t) : Handler unit :=
  session <- get_session ;;
  match session_get_Trip session trip_id with
  | None => raise (mkHTTPException HTTP_404_NOT_FOUND "Trip not found")
  | Some trip =>
      if negb (Trip.owner_id trip =? User.id current_user)
      then raise (mkHTTPException HTTP_403_FORBIDDEN
                                  "Only the owner can share the trip")
      else
        match select_User_by_email session
                (ShareRequest.email share_request) with
        | None =>
            raise (mkHTTPException HTTP_404_NOT_FOUND
                                   "User to share with was not found")
        | Some target_user =>
            if User.id target_user =? User.id current_user
            then raise (mkHTTPException HTTP_400_BAD_REQUEST
                                        "Cannot share a trip with yourself")
            else
              match select_TripShare session trip_id
                      (User.id target_user) with
              | Some _ => ret tt
              | None =>
                  add_TripShare
                    (TripShare.Build trip_id (User.id target_user) now)
              end
        end
  end.

(* [_trip_to_read(session.get(Trip, trip_id), ...)]: a missing row would
   fail on the first attribute access, an unhandled error. *)
Definition read_back (trip_id : Z) : Handler TripRead.t :=
  session <- get_session ;;
  match session_get_Trip session trip_id with
  | None =>
      raise (mkHTTPException HTTP_500_INTERNAL_SERVER_ERROR
                             "Internal Server Error")
  | Some trip =>
      ret (_trip_to_read trip (_fetch_flights session trip_id)
                         (_fetch_hotels session trip_id)
                         (_fetch_share_ids session trip_id))
  end.

Definition add_flight (trip_id : Z) (flight : FlightCreate.t)
  (current_user : User.t) : Handler TripRead.t :=
  _ensure_trip_access (User.id current_user) trip_id ;;;
  add_Flight trip_id flight ;;;
  read_back trip_id.

Definition add_hotel (trip_id : Z) (hotel : HotelCreate.t)
  (current_user : User.t) : Handler TripRead.t :=
  _ensure_trip_access (User.id current_user) trip_id ;;;
  add_Hotel trip_id hotel ;;;
  read_back trip_id.

(** ** The route table *)

Inductive Request : Type :=
| POST_auth_register (user_create : UserCreate.t)
| POST_auth_login (form_data : OAuth2PasswordRequestForm.t)
| POST_trips (current_user : User.t) (trip_create : TripCreate.t)
| GET_trips (current_user : User.t)
| GET_trips_id (current_user : User.t) (trip_id : Z)
| POST_trips_id_share (current_user : User.t) (trip_id : Z)
    (share_request : ShareRequest.t)
| POST_trips_id_flights (current_user : User.t) (trip_id : Z)
    (flight : FlightCreate.t)
| POST_trips_id_hotels (current_user : User.t) (trip_id : Z)
    (hotel : HotelCreate.t).

Inductive Body : Type :=
| Body_UserRead (user : UserRead.t)
| Body_Token (token : Token.t)
| Body_TripRead (trip : TripRead.t)
| Body_TripRead_list (trips : list TripRead.t)
| Body_empty
| Body_detail (detail : string).

Record Response : Type := mkResponse
  { response_status : Z; response_body : Body }.

(* A returned value is sent with the status code of the route, a raised
   [HTTPException] with its own status code and its detail. *)
Definition respond {A} (success_status : Z) (to_body : A -> Body)
  (r : Database * result A) : Database * Response :=
  match r with
  | (db, Return a) => (db, mkResponse success_status (to_body a))
  | (db, Raise e) => (db, mkResponse (status_code e) (Body_detail (detail e)))
  end.

Definition app (now : datetime) (request : Request) (db : Database)
  : Database * Response :=
  match request with
  | POST_auth_register user_create =>
      respond HTTP_201_CREATED Body_UserRead (register now user_create db)
  | POST_auth_login form_data =>
      respond HTTP_200_OK Body_Token (login form_data db)
  | POST_trips current_user trip_create =>
      respond HTTP_201_CREATED Body_TripRead
              (create_trip now trip_create current_user db)
  | GET_trips current_user =>
      respond HTTP_200_OK Body_TripRead_list (list_trips current_user db)
  | GET_trips_id current_user trip_id =>
      respond HTTP_200_OK Body_TripRead (get_trip trip_id current_user db)
  | POST_trips_id_share current_user trip_id share_request =>
      respond HTTP_204_NO_CONTENT (fun _ => Body_empty)
              (share_trip now trip_id share_request current_user db)
  | POST_trips_id_flights current_user trip_id flight =>
      respond HTTP_200_OK Body_TripRead
              (add_flight trip_id flight current_user db)
  | POST_trips_id_hotels current_user trip_id hotel =>
      respond HTTP_200_OK Body_TripRead
              (add_hotel trip_id hotel current_user db)
  end.

(* The requests of a session of the service, each with the clock reading
   at which it is served, applied in order. *)
Fixpoint run (reqs : list (datetime * Request)) (db : Database) : Database :=
  match reqs with
  | [] => db
  | (now, request) :: rest => run rest (fst (app now request db))
  end.

Inductive reachable : Database -> Prop :=
| reachable_empty : reachable empty_db
| reachable_step db now request :
    reachable db -> reachable (fst (app now request db)).

Definition is_success (r : Response) : bool :=
  (200 <=? response_status r) && (response_status r <? 300).

Definition is_client_error (r : Response) : bool :=
  (400 <=? response_status r) && (response_status r <? 500).

(** Spec-side vocabulary used in the statements below. *)

(* A TripShare row for the pair (trip_id, user_id) is stored. *)
Definition share_exists (db : Database) (trip_id user_id : Z) : Prop :=
  exists s, In s (shares db)
            /\ TripShare.trip_id s = trip_id /\ TripShare.user_id s = user_id.

(* The stored TripShare rows for the pair (trip_id, user_id). *)
Definition share_rows (db : Database) (trip_id user_id : Z)
  : list TripShare.t :=
  filter (fun s => (TripShare.trip_id s =? trip_id)
                   && (TripShare.user_id s =? user_id)) (shares db).

(* The user is the owner of the trip or holds a share on it. *)
Definition owner_or_shared (db : Database) (user_id : Z) (t : Trip.t) : Prop :=
  Trip.owner_id t = user_id \/ share_exists db (Trip.id t) user_id.

(* composeRead of the specification: the trip with its flights, hotels
   and share targets as the handlers assemble them. *)
Definition composeRead (db : Database) (trip : Trip.t) : TripRead.t :=
  _trip_to_read trip (_fetch_flights db (Trip.id trip))
                (_fetch_hotels db (Trip.id trip))
                (_fetch_share_ids db (Trip.id trip)).

(* The view carries the fields of the trip and exactly the flights, the
   hotels and the share targets stored for it. *)
Definition is_view_of (db : Database) (t : Trip.t) (view : TripRead.t)
  : Prop :=
  TripRead.id view = Trip.id t
  /\ TripRead.name view = Trip.name t
  /\ TripRead.owner_id view = Trip.owner_id t
  /\ TripRead.start_date view = Trip.start_date t
  /\ TripRead.end_date view = Trip.end_date t
  /\ TripRead.flights view
     = map FlightRead.of_row
           (filter (fun f => Flight.trip_id f =? Trip.id t) (flights db))
  /\ TripRead.hotels view
     = map HotelRead.of_row
           (filter (fun h => Hotel.trip_id h =? Trip.id t) (hotels db))
  /\ TripRead.shared_with_user_ids view
     = map TripShare.user_id
           (filter (fun s => TripShare.trip_id s =? Trip.id t) (shares db))
  /\ (forall user_id,
        In user_id (TripRead.shared_with_user_ids view)
        <-> share_exists db (Trip.id t) user_id).

(* What the key declarations of models.py and the checks of the
   handlers keep true of the stored tables. *)
Record consistent (db : Database) : Prop := mk_consistent
  { trip_ids_unique : NoDup (map Trip.id (trips db));
    user_ids_unique : NoDup (map User.id (users db));
    emails_unique : NoDup (map User.email (users db));
    share_keys_unique :
      forall trip_id user_id,
        (List.length (share_rows db trip_id user_id) <= 1)%nat;
    share_trip_exists :
      forall s, In s (shares db) ->
                exists t, In t (trips db) /\ Trip.id t = TripShare.trip_id s;
    share_user_exists :
      forall s, In s (shares db) ->
                exists u, In u (users db) /\ User.id u = TripShare.user_id s;
    share_not_owner :
      forall s t, In s (shares db) -> In t (trips db) ->
                  Trip.id t = TripShare.trip_id s ->
                  TripShare.user_id s <> Trip.owner_id t }.

(** ** Proof automation for the handlers *)

Ltac unfold_handlers :=
  unfold app, respond, register, login, create_trip, list_trips, get_trip,
    share_trip, add_flight, add_hotel, read_back, _ensure_trip_access,
    add_TripShare, add_Flight, add_Hotel, add_User, add_Trip,
    bind, ret, raise, get_session.

Ltac innermost_scrutinee x :=
  lazymatch x with
  | context [match _ with _ => _ end] => fail
  | _ => idtac
  end.

Ltac break_match :=
  repeat match goal with
         | |- context [match ?x with _ => _ end] =>
             innermost_scrutinee x; destruct x eqn:?; simpl
         end.

(** ** Lists, keys and fresh identifiers *)

Lemma NoDup_map_In_eq {A B} (f : A -> B) (l : list A) (x y : A) :
  NoDup (map f l) -> In x l -> In y l -> f x = f y -> x = y.
Proof.
  induction l as [|a l IH]; simpl; intros ND Hx Hy E; [contradiction|].
  inversion ND as [|? ? Hnin ND']; subst.
  destruct Hx as [->|Hx], Hy as [->|Hy]; auto.
  - exfalso. apply Hnin. rewrite E. now apply in_map.
  - exfalso. apply Hnin. rewrite <- E. now apply in_map.
Qed.

Lemma NoDup_snoc {A} (l : list A) (a : A) :
  NoDup l -> ~ In a l -> NoDup (l ++ [a]).
Proof.
  intros ND Hnin. apply NoDup_app; auto.
  - constructor; [intros []|constructor].
  - intros b Hb [<-|[]]. contradiction.
Qed.

Lemma fold_max_ge (ids : list Z) (i : Z) :
  In i ids -> i <= fold_right Z.max 0 ids.
Proof.
  induction ids as [|a ids IH]; simpl; [contradiction|].
  intros [->|H]; [lia|]. specialize (IH H). lia.
Qed.

Lemma next_id_gt (ids : list Z) (i : Z) : In i ids -> i < next_id ids.
Proof. intros H. apply fold_max_ge in H. unfold next_id. lia. Qed.

Lemma next_id_fresh (ids : list Z) : ~ In (next_id ids) ids.
Proof. intros H. apply next_id_gt in H. lia. Qed.

Lemma filter_nil_iff {A} (f : A -> bool) (l : list A) :
  (forall x, In x l -> f x = false) -> filter f l = [].
Proof.
  induction l as [|a l IH]; simpl; intros H; [reflexivity|].
  rewrite (H a) by now left. apply IH. intros x Hx. apply H. now right.
Qed.

Lemma find_filter_None {A} (f : A -> bool) (l : list A) :
  find f l = None -> filter f l = [].
Proof. intros H. apply filter_nil_iff. exact (find_none f l H). Qed.

Lemma find_app_None {A} (f : A -> bool) (l l' : list A) :
  find f l = None -> find f (l ++ l') = find f l'.
Proof.
  induction l as [|a l IH]; simpl; [reflexivity|].
  destruct (f a); [discriminate|exact IH].
Qed.

Lemma find_Some_ex {A} (f : A -> bool) (l : list A) (x : A) :
  In x l -> f x = true -> exists y, find f l = Some y.
Proof.
  intros Hin Hf. destruct (find f l) as [y|] eqn:E; [eauto|].
  rewrite (find_none f l E x Hin) in Hf. discriminate.
Qed.

(** ** What the queries return *)

Lemma select_User_by_email_Some db email u :
  select_User_by_email db email = Some u ->
  In u (users db) /\ User.email u = email.
Proof.
  unfold select_User_by_email. intros H. apply find_some in H.
  destruct H as [Hin E]. apply String.eqb_eq in E. auto.
Qed.

Lemma select_User_by_email_None db email :
  select_User_by_email db email = None <->
  (forall u, In u (users db) -> User.email u <> email).
Proof.
  unfold select_User_by_email. split.
  - intros H u Hin E. apply (find_none _ _ H) in Hin.
    apply String.eqb_neq in Hin. contradiction.
  - intros H. destruct (find _ _) as [u|] eqn:E; [|reflexivity].
    apply find_some in E. destruct E as [Hin E]. apply String.eqb_eq in E.
    exfalso. exact (H u Hin E).
Qed.

Lemma select_User_by_email_unique db v :
  NoDup (map User.email (users db)) -> In v (users db) ->
  select_User_by_email db (User.email v) = Some v.
Proof.
  intros ND Hin.
  destruct (select_User_by_email db (User.email v)) as [u|] eqn:E.
  - apply select_User_by_email_Some in E. destruct E as [Hu E].
    f_equal. exact (NoDup_map_In_eq User.email _ u v ND Hu Hin E).
  - exfalso.
    exact (proj1 (select_User_by_email_None db _) E v Hin eq_refl).
Qed.

Lemma session_get_Trip_Some db trip_id t :
  session_get_Trip db trip_id = Some t ->
  In t (trips db) /\ Trip.id t = trip_id.
Proof.
  unfold session_get_Trip. intros H. apply find_some in H.
  destruct H as [Hin E]. apply Z.eqb_eq in E. auto.
Qed.

Lemma session_get_Trip_None db trip_id :
  session_get_Trip db trip_id = None <->
  (forall t, In t (trips db) -> Trip.id t <> trip_id).
Proof.
  unfold session_get_Trip. split.
  - intros H t Hin E. apply (find_none _ _ H) in Hin.
    apply Z.eqb_neq in Hin. contradiction.
  - intros H. destruct (find _ _) as [t|] eqn:E; [|reflexivity].
    apply find_some in E. destruct E as [Hin E]. apply Z.eqb_eq in E.
    exfalso. exact (H t Hin E).
Qed.

Lemma session_get_Trip_unique db t :
  NoDup (map Trip.id (trips db)) -> In t (trips db) ->
  session_get_Trip db (Trip.id t) = Some t.
Proof.
  intros ND Hin.
  destruct (session_get_Trip db (Trip.id t)) as [t'|] eqn:E.
  - apply session_get_Trip_Some in E. destruct E as [Ht' E].
    f_equal. exact (NoDup_map_In_eq Trip.id _ t' t ND Ht' Hin E).
  - exfalso. exact (proj1 (session_get_Trip_None db _) E t Hin eq_refl).
Qed.

Lemma _user_has_access_true db user_id trip_id :
  _user_has_access db user_id trip_id = true <->
  share_exists db trip_id user_id.
Proof.
  unfold _user_has_access, select_TripShare, share_exists. split.
  - destruct (find _ _) as [s|] eqn:E; [intros _|discriminate].
    apply find_some in E. destruct E as [Hin E].
    apply andb_true_iff in E. destruct E as [E1 E2].
    apply Z.eqb_eq in E1, E2. eauto.
  - intros (s & Hin & E1 & E2).
    destruct (find_Some_ex
                (fun s => (TripShare.trip_id s =? trip_id)
                          && (TripShare.user_id s =? user_id))
                (shares db) s Hin) as [y ->]; [|reflexivity].
    apply andb_true_iff. split; now apply Z.eqb_eq.
Qed.

Lemma _user_has_access_false db user_id trip_id :
  _user_has_access db user_id trip_id = false <->
  ~ share_exists db trip_id user_id.
Proof.
  rewrite <- _user_has_access_true.
  destruct (_user_has_access db user_id trip_id); split; intros H;
    try reflexivity; try discriminate; try (intros E; discriminate).
  exfalso. now apply H.
Qed.

(** ** Effects of the handlers on the tables *)

Lemma add_all_Flight_effect trip_id (xs : list FlightCreate.t) db :
  exists rows,
    add_all (add_Flight trip_id) xs db
    = (mkDatabase (users db) (trips db) (flights db ++ rows) (hotels db)
                  (shares db), Return rows)
    /\ Forall (fun f => Flight.trip_id f = trip_id) rows.
Proof.
  revert db. induction xs as [|x xs IH]; intros db; simpl.
  - exists []. split; [|constructor].
    unfold ret. rewrite app_nil_r. now destruct db.
  - unfold bind at 1. unfold add_Flight at 1. unfold bind at 1.
    match goal with
    | |- context [add_all _ xs ?d] => destruct (IH d) as (rows & E & HF)
    end.
    rewrite E. simpl. unfold ret.
    eexists. split.
    + rewrite <- app_assoc. simpl. reflexivity.
    + constructor; [reflexivity|exact HF].
Qed.

Lemma add_all_Hotel_effect trip_id (xs : list HotelCreate.t) db :
  exists rows,
    add_all (add_Hotel trip_id) xs db
    = (mkDatabase (users db) (trips db) (flights db) (hotels db ++ rows)
                  (shares db), Return rows)
    /\ Forall (fun h => Hotel.trip_id h = trip_id) rows.
Proof.
  revert db. induction xs as [|x xs IH]; intros db; simpl.
  - exists []. split; [|constructor].
    unfold ret. rewrite app_nil_r. now destruct db.
  - unfold bind at 1. unfold add_Hotel at 1. unfold bind at 1.
    match goal with
    | |- context [add_all _ xs ?d] => destruct (IH d) as (rows & E & HF)
    end.
    rewrite E. simpl. unfold ret.
    eexists. split.
    + rewrite <- app_assoc. simpl. reflexivity.
    + constructor; [reflexivity|exact HF].
Qed.

Lemma create_trip_effect now trip_create current_user db :
  let trip := Trip.Build (next_id (map Trip.id (trips db)))
                (TripCreate.name trip_create) (User.id current_user)
                (TripCreate.start_date trip_create)
                (TripCreate.end_date trip_create) now in
  exists frows hrows,
    create_trip now trip_create current_user db
    = (mkDatabase (users db) (trips db ++ [trip]) (flights db ++ frows)
                  (hotels db ++ hrows) (shares db),
       Return (_trip_to_read trip frows hrows []))
    /\ Forall (fun f => Flight.trip_id f = Trip.id trip) frows
    /\ Forall (fun h => Hotel.trip_id h = Trip.id trip) hrows.
Proof.
  intros trip. unfold create_trip, bind, add_Trip. fold trip.
  match goal with
  | |- context [add_all (add_Flight ?i) ?xs ?d] =>
      destruct (add_all_Flight_effect i xs d) as (frows & E1 & H1)
  end.
  rewrite E1. simpl in *.
  match goal with
  | |- context [add_all (add_Hotel ?i) ?xs ?d] =>
      destruct (add_all_Hotel_effect i xs d) as (hrows & E2 & H2)
  end.
  rewrite E2. simpl in *. exists frows, hrows. auto.
Qed.

Lemma app_users now request db :
  users (fst (app now request db)) = users db
  \/ exists u,
      users (fst (app now request db)) = users db ++ [u]
      /\ User.id u = next_id (map User.id (users db))
      /\ select_User_by_email db (User.email u) = None.
Proof.
  destruct request; simpl.
  - unfold_handlers.
    destruct (select_User_by_email db (UserCreate.email user_create)) eqn:E;
      simpl; [now left|right].
    eexists. split; [reflexivity|]. simpl. auto.
  - left. unfold_handlers. break_match; reflexivity.
  - left. destruct (create_trip_effect now trip_create current_user db)
      as (fr & hr & E & _). rewrite E. reflexivity.
  - left. reflexivity.
  - left. unfold_handlers. break_match; reflexivity.
  - left. unfold_handlers. break_match; reflexivity.
  - left. unfold_handlers. break_match; reflexivity.
  - left. unfold_handlers. break_match; reflexivity.
Qed.

Lemma app_trips now request db :
  trips (fst (app now request db)) = trips db
  \/ exists t,
      trips (fst (app now request db)) = trips db ++ [t]
      /\ Trip.id t = next_id (map Trip.id (trips db)).
Proof.
  destruct request; simpl.
  - left. unfold_handlers. break_match; reflexivity.
  - left. unfold_handlers. break_match; reflexivity.
  - right. destruct (create_trip_effect now trip_create current_user db)
      as (fr & hr & E & _). rewrite E. simpl. eauto.
  - left. reflexivity.
  - left. unfold_handlers. break_match; reflexivity.
  - left. unfold_handlers. break_match; reflexivity.
  - left. unfold_handlers. break_match; reflexivity.
  - left. unfold_handlers. break_match; reflexivity.
Qed.

Lemma app_shares now request db :
  shares (fst (app now request db)) = shares db
  \/ exists s t u,
      shares (fst (app now request db)) = shares db ++ [s]
      /\ session_get_Trip db (TripShare.trip_id s) = Some t
      /\ TripShare.user_id s <> Trip.owner_id t
      /\ In u (users db) /\ User.id u = TripShare.user_id s
      /\ select_TripShare db (TripShare.trip_id s) (TripShare.user_id s)
         = None.
Proof.
  destruct request; simpl.
  - left. unfold_handlers. break_match; reflexivity.
  - left. unfold_handlers. break_match; reflexivity.
  - left. destruct (create_trip_effect now trip_create current_user db)
      as (fr & hr & E & _). rewrite E. reflexivity.
  - left. reflexivity.
  - left. unfold_handlers. break_match; reflexivity.
  - unfold_handlers.
    destruct (session_get_Trip db trip_id) as [trip|] eqn:Et; simpl;
      [|now left].
    destruct (Trip.owner_id trip =? User.id current_user) eqn:Eo; simpl;
      [|now left].
    destruct (select_User_by_email db (ShareRequest.email share_request))
      as [target|] eqn:Eu; simpl; [|now left].
    destruct (User.id target =? User.id current_user) eqn:Ei; simpl;
      [now left|].
    destruct (select_TripShare db trip_id (User.id target)) eqn:Es; simpl;
      [now left|right].
    apply Z.eqb_eq in Eo. apply Z.eqb_neq in Ei.
    apply select_User_by_email_Some in Eu. destruct Eu as [Hin _].
    eexists. exists trip, target. split; [reflexivity|]. simpl.
    repeat split; auto. congruence.
  - left. unfold_handlers. break_match; reflexivity.
  - left. unfold_handlers. break_match; reflexivity.
Qed.

(** ** Invariants of the stored tables *)

Lemma consistent_empty : consistent empty_db.
Proof.
  constructor; simpl; try constructor; try contradiction.
  intros. unfold share_rows. simpl. lia.
Qed.

Lemma share_rows_snoc db db' s trip_id user_id :
  shares db' = shares db ++ [s] ->
  select_TripShare db (TripShare.trip_id s) (TripShare.user_id s) = None ->
  (List.length (share_rows db trip_id user_id) <= 1)%nat ->
  (List.length (share_rows db' trip_id user_id) <= 1)%nat.
Proof.
  unfold share_rows, select_TripShare. intros -> Hnone Hold.
  rewrite filter_app, length_app. simpl.
  destruct ((TripShare.trip_id s =? trip_id)
            && (TripShare.user_id s =? user_id)) eqn:E; simpl; [|lia].
  apply andb_true_iff in E. destruct E as [E1 E2].
  apply Z.eqb_eq in E1, E2. subst trip_id user_id.
  rewrite (find_filter_None _ _ Hnone). simpl. lia.
Qed.

Lemma consistent_step now request db :
  consistent db -> consistent (fst (app now request db)).
Proof.
  intros C.
  pose proof (app_users now request db) as HU.
  pose proof (app_trips now request db) as HT.
  pose proof (app_shares now request db) as HS.
  set (db' := fst (app now request db)) in *.
  assert (Hin_u : forall u, In u (users db) -> In u (users db')).
  { intros u Hu. destruct HU as [->|(u' & -> & _)]; auto.
    apply in_or_app. now left. }
  assert (Hin_t : forall t, In t (trips db) -> In t (trips db')).
  { intros t Ht. destruct HT as [->|(t' & -> & _)]; auto.
    apply in_or_app. now left. }
  constructor.
  - destruct HT as [->|(t & -> & Eid)]; [apply C|].
    rewrite map_app. simpl. apply NoDup_snoc; [apply C|].
    rewrite Eid. apply next_id_fresh.
  - destruct HU as [->|(u & -> & Eid & _)]; [apply C|].
    rewrite map_app. simpl. apply NoDup_snoc; [apply C|].
    rewrite Eid. apply next_id_fresh.
  - destruct HU as [->|(u & -> & _ & Enone)]; [apply C|].
    rewrite map_app. simpl. apply NoDup_snoc; [apply C|].
    intros Hin. apply in_map_iff in Hin. destruct Hin as (v & Ev & Hv).
    exact (proj1 (select_User_by_email_None db _) Enone v Hv Ev).
  - intros trip_id user_id.
    destruct HS as [E|(s & t & u & E & _ & _ & _ & _ & Enone)].
    + unfold share_rows. rewrite E. apply C.
    + eapply share_rows_snoc; eauto. apply C.
  - intros s Hs.
    destruct HS as [E|(s' & t & u & E & Et & _)]; rewrite E in Hs.
    + destruct (share_trip_exists db C s Hs) as (t & Ht & Eid). eauto.
    + apply in_app_or in Hs. destruct Hs as [Hs|[<-|[]]].
      * destruct (share_trip_exists db C s Hs) as (t0 & Ht & Eid). eauto.
      * apply session_get_Trip_Some in Et. destruct Et. eauto.
  - intros s Hs.
    destruct HS as [E|(s' & t & u & E & _ & _ & Hu & Eu & _)];
      rewrite E in Hs.
    + destruct (share_user_exists db C s Hs) as (u & Hu & Eid). eauto.
    + apply in_app_or in Hs. destruct Hs as [Hs|[<-|[]]].
      * destruct (share_user_exists db C s Hs) as (u0 & Hu0 & Eid). eauto.
      * eauto.
  - intros s t Hs Ht Eid.
    assert (Hold : forall s0, In s0 (shares db) ->
                              Trip.id t = TripShare.trip_id s0 ->
                              TripShare.user_id s0 <> Trip.owner_id t).
    { intros s0 Hs0 Eid0.
      destruct HT as [Et|(t' & Et & Enew)]; rewrite Et in Ht.
      - now apply (share_not_owner db C).
      - apply in_app_or in Ht. destruct Ht as [Ht|[<-|[]]].
        + now apply (share_not_owner db C).
        + exfalso.
          destruct (share_trip_exists db C s0 Hs0) as (t0 & Ht0 & E0).
          apply (next_id_fresh (map Trip.id (trips db))).
          rewrite <- Enew, Eid0, <- E0. now apply in_map. }
    destruct HS as [E|(s' & t' & u & E & Et' & Hne & _)]; rewrite E in Hs.
    + now apply Hold.
    + apply in_app_or in Hs. destruct Hs as [Hs|[<-|[]]]; [now apply Hold|].
      destruct (session_get_Trip_Some _ _ _ Et') as [Hin' Eid'].
      assert (t = t') as ->; [|exact Hne].
      destruct HT as [Etr|(t2 & Etr & Enew)]; rewrite Etr in Ht.
      * eapply (NoDup_map_In_eq Trip.id); eauto; [apply C|congruence].
      * apply in_app_or in Ht. destruct Ht as [Ht|[<-|[]]].
        -- eapply (NoDup_map_In_eq Trip.id); eauto; [apply C|congruence].
        -- exfalso. apply (next_id_fresh (map Trip.id (trips db))).
           rewrite <- Enew, Eid, <- Eid'. now apply in_map.
Qed.

Lemma reachable_consistent db : reachable db -> consistent db.
Proof.
  induction 1 as [|db now request _ IH].
  - exact consistent_empty.
  - now apply consistent_step.
Qed.

Lemma run_reachable reqs db : reachable db -> reachable (run reqs db).
Proof.
  revert db. induction reqs as [|[now request] reqs IH]; intros db H; simpl.
  - exact H.
  - apply IH. now constructor.
Qed.

Lemma reachable_run db :
  reachable db -> exists reqs, db = run reqs empty_db.
Proof.
  assert (Hsnoc : forall reqs now request d,
             run (reqs ++ [(now, request)]) d
             = fst (app now request (run reqs d))).
  { induction reqs as [|[n r] reqs IH]; intros; simpl; [reflexivity|].
    apply IH. }
  induction 1 as [|db now request _ (reqs & ->)].
  - now exists [].
  - exists (reqs ++ [(now, request)]). now rewrite Hsnoc.
Qed.

(** ** Access to a trip *)

Lemma session_get_Trip_frame db db' trip_id :
  trips db' = trips db ->
  session_get_Trip db' trip_id = session_get_Trip db trip_id.
Proof. unfold session_get_Trip. now intros ->. Qed.

Lemma access_check db user_id trip_id t :
  Trip.id t = trip_id ->
  negb (Trip.owner_id t =? user_id)
  && negb (_user_has_access db user_id trip_id) = false
  <-> owner_or_shared db user_id t.
Proof.
  intros <-. unfold owner_or_shared.
  rewrite <- _user_has_access_true, <- Z.eqb_eq.
  destruct (Trip.owner_id t =? user_id),
    (_user_has_access db user_id (Trip.id t)); simpl; split; auto.
  intros [H|H]; discriminate.
Qed.

Lemma access_check_denied db user_id trip_id t :
  Trip.id t = trip_id ->
  ~ owner_or_shared db user_id t ->
  negb (Trip.owner_id t =? user_id)
  && negb (_user_has_access db user_id trip_id) = true.
Proof.
  intros E H. rewrite <- (access_check db user_id trip_id t E) in H.
  now destruct (negb _ && negb _).
Qed.

(** C1. For an existing trip, reading it (GET /trips/{id}) and appending
    to it (POST /trips/{id}/flights, POST /trips/{id}/hotels) each succeed
    exactly when the requester is the trip's owner or a TripShare row for
    (trip, requester) is stored: append access is granted under the same
    condition as view access. *)
Theorem trip_access_iff_owner_or_shared now db u trip_id t flight hotel :
  session_get_Trip db trip_id = Some t ->
  (is_success (snd (app now (GET_trips_id u trip_id) db)) = true
   <-> owner_or_shared db (User.id u) t)
  /\ (is_success (snd (app now (POST_trips_id_flights u trip_id flight) db))
      = true <-> owner_or_shared db (User.id u) t)
  /\ (is_success (snd (app now (POST_trips_id_hotels u trip_id hotel) db))
      = true <-> owner_or_shared db (User.id u) t).
Proof.
  intros Hget.
  destruct (session_get_Trip_Some _ _ _ Hget) as [_ Eid].
  pose proof (access_check db (User.id u) trip_id t Eid) as Hacc.
  rewrite <- Hacc.
  repeat split; unfold_handlers; simpl; rewrite Hget;
    destruct (negb (Trip.owner_id t =? User.id u)
              && negb (_user_has_access db (User.id u) trip_id));
    simpl; try discriminate; try reflexivity;
    intros _; unfold session_get_Trip in *; simpl; rewrite Hget;
    reflexivity.
Qed.

(** C2. Existence is checked before authorization: when no trip has the
    requested id, each trip-scoped operation answers 404 whoever asks;
    when the trip exists and the requester is neither its owner nor a
    share target, each answers 403.  The store is left as it was. *)
Theorem missing_trip_404_before_forbidden_403
  now db u trip_id share_request flight hotel :
  ((forall t, In t (trips db) -> Trip.id t <> trip_id) ->
   forall request,
     In request [GET_trips_id u trip_id;
                 POST_trips_id_share u trip_id share_request;
                 POST_trips_id_flights u trip_id flight;
                 POST_trips_id_hotels u trip_id hotel] ->
     app now request db
     = (db, mkResponse HTTP_404_NOT_FOUND (Body_detail "Trip not found")))
  /\ (forall t,
        session_get_Trip db trip_id = Some t ->
        ~ owner_or_shared db (User.id u) t ->
        forall request,
          In request [GET_trips_id u trip_id;
                      POST_trips_id_share u trip_id share_request;
                      POST_trips_id_flights u trip_id flight;
                      POST_trips_id_hotels u trip_id hotel] ->
          fst (app now request db) = db
          /\ response_status (snd (app now request db))
             = HTTP_403_FORBIDDEN).
Proof.
  split.
  - intros Hnone request Hin.
    apply session_get_Trip_None in Hnone.
    simpl in Hin.
    destruct Hin as [<-|[<-|[<-|[<-|[]]]]];
      unfold_handlers; simpl; rewrite Hnone; reflexivity.
  - intros t Hget Hden request Hin.
    destruct (session_get_Trip_Some _ _ _ Hget) as [_ Eid].
    pose proof (access_check_denied db (User.id u) trip_id t Eid Hden) as Hacc.
    assert (Hown : negb (Trip.owner_id t =? User.id u) = true).
    { apply andb_true_iff in Hacc. tauto. }
    simpl in Hin.
    destruct Hin as [<-|[<-|[<-|[<-|[]]]]];
      unfold_handlers; simpl; rewrite Hget;
      try rewrite Hacc; try rewrite Hown; simpl; auto.
Qed.

(** C3. In every state reachable from the empty store through the routes,
    the TripShare table holds at most one row per (trip_id, user_id) pair
    and no row whose user_id is the owner_id of the trip it references. *)
Theorem reachable_shares_unique_and_never_owner db :
  reachable db ->
  (forall trip_id user_id,
      (List.length (share_rows db trip_id user_id) <= 1)%nat)
  /\ (forall s t,
        In s (shares db) -> In t (trips db) ->
        Trip.id t = TripShare.trip_id s ->
        TripShare.user_id s <> Trip.owner_id t).
Proof.
  intros H. apply reachable_consistent in H. split.
  - apply H.
  - apply H.
Qed.

(** ** Sharing *)

Lemma select_TripShare_frame db db' trip_id user_id :
  shares db' = shares db ->
  select_TripShare db' trip_id user_id = select_TripShare db trip_id user_id.
Proof. unfold select_TripShare. now intros ->. Qed.

Lemma select_User_by_email_frame db db' email :
  users db' = users db ->
  select_User_by_email db' email = select_User_by_email db email.
Proof. unfold select_User_by_email. now intros ->. Qed.

Lemma share_rows_found db trip_id user_id s :
  select_TripShare db trip_id user_id = Some s ->
  (1 <= List.length (share_rows db trip_id user_id))%nat.
Proof.
  unfold select_TripShare, share_rows. intros H. apply find_some in H.
  apply (proj2 (filter_In
                  (fun s => (TripShare.trip_id s =? trip_id)
                            && (TripShare.user_id s =? user_id))
                  s (shares db))) in H.
  destruct (filter _ (shares db)); [contradiction|simpl; lia].
Qed.

(* The successful paths of share_trip: the trip is the requester's, the
   e-mail address resolves to another user. *)
Lemma share_trip_granted now db o trip_id t target share_request :
  session_get_Trip db trip_id = Some t ->
  Trip.owner_id t = User.id o ->
  select_User_by_email db (ShareRequest.email share_request) = Some target ->
  User.id target <> User.id o ->
  app now (POST_trips_id_share o trip_id share_request) db
  = (match select_TripShare db trip_id (User.id target) with
     | Some _ => db
     | None =>
         mkDatabase (users db) (trips db) (flights db) (hotels db)
           (shares db ++ [TripShare.Build trip_id (User.id target) now])
     end,
     mkResponse HTTP_204_NO_CONTENT Body_empty).
Proof.
  intros Hget Hown Hsel Hne. unfold_handlers. simpl.
  rewrite Hget, Hsel.
  apply Z.eqb_eq in Hown. rewrite Hown. simpl.
  apply Z.eqb_neq in Hne. rewrite Hne.
  destruct (select_TripShare db trip_id (User.id target)); reflexivity.
Qed.

(** C4. Sharing is idempotent: when the owner of a trip shares it twice
    in succession with a registered user other than themselves, both
    calls answer 204, the second call leaves the store as the first left
    it, and exactly one TripShare row for (trip, user) is stored. *)
Theorem share_twice_idempotent now1 now2 db o v trip_id t :
  reachable db ->
  session_get_Trip db trip_id = Some t ->
  Trip.owner_id t = User.id o ->
  In v (users db) ->
  User.id v <> User.id o ->
  let request :=
    POST_trips_id_share o trip_id (ShareRequest.Build (User.email v)) in
  let db1 := fst (app now1 request db) in
  let db2 := fst (app now2 request db1) in
  snd (app now1 request db) = mkResponse HTTP_204_NO_CONTENT Body_empty
  /\ snd (app now2 request db1) = mkResponse HTTP_204_NO_CONTENT Body_empty
  /\ db2 = db1
  /\ List.length (share_rows db2 trip_id (User.id v)) = 1%nat.
Proof.
  intros Hreach Hget Hown Hin Hne request db1 db2.
  pose proof (reachable_consistent db Hreach) as C.
  pose proof (select_User_by_email_unique db v (emails_unique db C) Hin)
    as Hsel.
  pose proof (share_trip_granted now1 db o trip_id t v
                (ShareRequest.Build (User.email v)) Hget Hown Hsel Hne) as E1.
  fold request in E1.
  assert (Hfound : exists s, select_TripShare db1 trip_id (User.id v) = Some s).
  { subst db1. rewrite E1. simpl.
    destruct (select_TripShare db trip_id (User.id v)) as [s|] eqn:Es;
      [eauto|].
    unfold select_TripShare in *. simpl. rewrite (find_app_None _ _ _ Es).
    simpl.
    rewrite !Z.eqb_refl. simpl. eauto. }
  destruct Hfound as [s Hs].
  assert (Hget1 : session_get_Trip db1 trip_id = Some t).
  { rewrite <- Hget. apply session_get_Trip_frame. subst db1. rewrite E1.
    simpl. now destruct (select_TripShare db trip_id (User.id v)). }
  assert (Hsel1 : select_User_by_email db1 (User.email v) = Some v).
  { rewrite <- Hsel. apply select_User_by_email_frame. subst db1. rewrite E1.
    simpl. now destruct (select_TripShare db trip_id (User.id v)). }
  pose proof (share_trip_granted now2 db1 o trip_id t v
                (ShareRequest.Build (User.email v)) Hget1 Hown Hsel1 Hne)
    as E2.
  fold request in E2. rewrite Hs in E2.
  assert (Hdb2 : db2 = db1) by (subst db2; now rewrite E2).
  repeat split.
  - now rewrite E1.
  - now rewrite E2.
  - exact Hdb2.
  - rewrite Hdb2. apply Nat.le_antisymm.
    + apply (share_keys_unique db1).
      subst db1. apply reachable_consistent. now constructor.
    + exact (share_rows_found db1 trip_id (User.id v) s Hs).
Qed.

(** C8. A request to share an existing trip with the requester's own
    account fails with a client error, 403 when the requester does not own
    the trip and 400 when they do, and the store, its TripShare table
    included, is left as it was. *)
Theorem share_with_self_rejected
  now db u trip_id t share_request target :
  session_get_Trip db trip_id = Some t ->
  select_User_by_email db (ShareRequest.email share_request) = Some target ->
  User.id target = User.id u ->
  let out := app now (POST_trips_id_share u trip_id share_request) db in
  is_client_error (snd out) = true
  /\ fst out = db
  /\ shares (fst out) = shares db
  /\ (Trip.owner_id t = User.id u ->
      response_status (snd out) = HTTP_400_BAD_REQUEST)
  /\ (Trip.owner_id t <> User.id u ->
      response_status (snd out) = HTTP_403_FORBIDDEN).
Proof.
  intros Hget Hsel Hself out. subst out. unfold_handlers. simpl.
  rewrite Hget.
  destruct (Trip.owner_id t =? User.id u) eqn:Eo; simpl.
  - rewrite Hsel. apply Z.eqb_eq in Hself. rewrite Hself. simpl.
    apply Z.eqb_eq in Eo. repeat split; auto. intros; contradiction.
  - apply Z.eqb_neq in Eo. repeat split; auto. intros; contradiction.
Qed.

(** C10. Whatever its outcome, a call to POST /trips/{id}/share leaves
    the User, Trip, Flight and Hotel tables as they were and keeps every
    stored TripShare row in place, adding at most one row after them. *)
Theorem share_trip_frame now db u trip_id share_request :
  let db' := fst (app now (POST_trips_id_share u trip_id share_request) db) in
  users db' = users db
  /\ trips db' = trips db
  /\ flights db' = flights db
  /\ hotels db' = hotels db
  /\ exists added,
      shares db' = shares db ++ added /\ (List.length added <= 1)%nat.
Proof.
  unfold_handlers. simpl.
  assert (Hsame : exists added,
             shares db = shares db ++ added /\ (List.length added <= 1)%nat).
  { exists []. rewrite app_nil_r. simpl. split; [reflexivity|lia]. }
  break_match; repeat split; auto.
  eexists. split; [reflexivity|simpl; lia].
Qed.

(** ** Listing and reading trips *)

Lemma option_Z_eqb_eq (a b : option Z) : option_Z_eqb a b = true <-> a = b.
Proof.
  destruct a as [x|], b as [y|]; simpl; split; intros H;
    try discriminate; try reflexivity.
  - apply Z.eqb_eq in H. now subst.
  - injection H as ->. apply Z.eqb_refl.
Qed.

Lemma Trip_eqb_eq (a b : Trip.t) : Trip.eqb a b = true <-> a = b.
Proof.
  unfold Trip.eqb. split.
  - intros H. repeat (apply andb_true_iff in H; destruct H as [H ?]).
    destruct a, b; simpl in *.
    repeat match goal with
           | E : (_ =? _) = true |- _ => apply Z.eqb_eq in E
           | E : String.eqb _ _ = true |- _ => apply String.eqb_eq in E
           | E : option_Z_eqb _ _ = true |- _ => apply option_Z_eqb_eq in E
           end.
    now subst.
  - intros <-. rewrite !Z.eqb_refl, String.eqb_refl.
    rewrite !(proj2 (option_Z_eqb_eq _ _) eq_refl). reflexivity.
Qed.

Lemma NoDup_map_filter {Row Key} (key : Row -> Key) (keep : Row -> bool)
  (rows : list Row) (ND : NoDup (map key rows)) :
  NoDup (map key (filter keep rows)).
Proof.
  induction rows as [|r rows IH]; simpl in *; [constructor|].
  inversion ND as [|? ? Hnin ND']; subst.
  destruct (keep r); simpl; [|now apply IH].
  constructor; [|now apply IH].
  intros Hin. apply Hnin. apply in_map_iff in Hin.
  destruct Hin as (x & E & Hx). apply filter_In in Hx.
  rewrite <- E. apply in_map. tauto.
Qed.

Lemma In_shared_trip_ids db user_id trip_id :
  In trip_id
     (map TripShare.trip_id
          (filter (fun s => TripShare.user_id s =? user_id) (shares db)))
  <-> share_exists db trip_id user_id.
Proof.
  unfold share_exists. rewrite in_map_iff. split.
  - intros (s & E & Hs). apply filter_In in Hs. destruct Hs as [Hs Eu].
    apply Z.eqb_eq in Eu. eauto.
  - intros (s & Hs & E & Eu). exists s. split; [exact E|].
    apply filter_In. split; [exact Hs|]. now apply Z.eqb_eq.
Qed.

Lemma In_shared_trips (all : list Trip.t) (ids : list Z) (t : Trip.t) :
  In t match ids with
       | [] => []
       | _ :: _ => filter (fun t => existsb (Z.eqb (Trip.id t)) ids) all
       end
  <-> In t all /\ In (Trip.id t) ids.
Proof.
  assert (H : In t (filter (fun t => existsb (Z.eqb (Trip.id t)) ids) all)
              <-> In t all /\ In (Trip.id t) ids).
  { rewrite filter_In, existsb_exists. split.
    - intros (Ht & i & Hi & E). apply Z.eqb_eq in E. subst i. auto.
    - intros (Ht & Hi). split; [exact Ht|]. exists (Trip.id t).
      split; [exact Hi|apply Z.eqb_refl]. }
  destruct ids; [|exact H]. simpl. tauto.
Qed.

Lemma NoDup_shared_trips (all : list Trip.t) (ids : list Z) :
  NoDup (map Trip.id all) ->
  NoDup (map Trip.id
             match ids with
             | [] => []
             | _ :: _ => filter (fun t => existsb (Z.eqb (Trip.id t)) ids) all
             end).
Proof.
  intros ND. destruct ids; [constructor|]. now apply NoDup_map_filter.
Qed.

Lemma not_in_owned (owned : list Trip.t) (t : Trip.t) :
  negb (existsb (Trip.eqb t) owned) = true <-> ~ In t owned.
Proof.
  rewrite negb_true_iff, <- not_true_iff_false, existsb_exists. split.
  - intros H Hin. apply H. exists t. split; [exact Hin|].
    now apply Trip_eqb_eq.
  - intros H (e & He & E). apply Trip_eqb_eq in E. now subst.
Qed.

(** C5. On every store whose trip ids are pairwise distinct (the primary
    key of [Trip]; every reachable store is one), whether or not the
    requester also holds a share on a trip they own, GET /trips answers
    with the views of the trips the requester owns, in stored order,
    followed by the views of the stored trips shared to the requester
    that are not already among the owned ones; together these are
    exactly the owned and the shared trips, and no trip id occurs twice
    in the answer. *)
Theorem list_trips_owned_then_shared now db u :
  NoDup (map Trip.id (trips db)) ->
  exists owned shared_only,
    app now (GET_trips u) db
    = (db, mkResponse HTTP_200_OK
             (Body_TripRead_list
                (map (composeRead db) (owned ++ shared_only))))
    /\ owned = filter (fun t => Trip.owner_id t =? User.id u) (trips db)
    /\ (forall t, In t owned
                  <-> In t (trips db) /\ Trip.owner_id t = User.id u)
    /\ (forall t, In t shared_only
                  <-> In t (trips db) /\ Trip.owner_id t <> User.id u
                      /\ share_exists db (Trip.id t) (User.id u))
    /\ (forall t, In t (owned ++ shared_only)
                  <-> In t (trips db) /\ owner_or_shared db (User.id u) t)
    /\ NoDup (map TripRead.id
                  (map (composeRead db) (owned ++ shared_only))).
Proof.
  intros ND.
  set (owned := filter (fun t => Trip.owner_id t =? User.id u) (trips db)).
  set (ids := map TripShare.trip_id
                (filter (fun s => TripShare.user_id s =? User.id u)
                        (shares db))).
  set (shared := match ids with
                 | [] => []
                 | _ :: _ =>
                     filter (fun t => existsb (Z.eqb (Trip.id t)) ids)
                            (trips db)
                 end).
  set (shared_only :=
         filter (fun trip => negb (existsb (Trip.eqb trip) owned)) shared).
  assert (Hown : forall t, In t owned
                           <-> In t (trips db) /\ Trip.owner_id t = User.id u).
  { intros t. unfold owned. rewrite filter_In, Z.eqb_eq. tauto. }
  assert (Hsh : forall t, In t shared_only
                          <-> In t (trips db) /\ Trip.owner_id t <> User.id u
                              /\ share_exists db (Trip.id t) (User.id u)).
  { intros t. unfold shared_only. rewrite filter_In, not_in_owned.
    unfold shared. rewrite In_shared_trips. unfold ids.
    rewrite In_shared_trip_ids, Hown. tauto. }
  exists owned, shared_only.
  split; [reflexivity|]. split; [reflexivity|].
  split; [exact Hown|]. split; [exact Hsh|]. split.
  - intros t. rewrite in_app_iff, Hown, Hsh. unfold owner_or_shared.
    destruct (Z.eq_dec (Trip.owner_id t) (User.id u)); tauto.
  - rewrite map_map. unfold composeRead, _trip_to_read. simpl.
    rewrite map_app. apply NoDup_app.
    + now apply NoDup_map_filter.
    + apply NoDup_map_filter. now apply NoDup_shared_trips.
    + intros i Hi1 Hi2.
      apply in_map_iff in Hi1. destruct Hi1 as (t1 & E1 & H1).
      apply in_map_iff in Hi2. destruct Hi2 as (t2 & E2 & H2).
      apply Hown in H1. apply Hsh in H2.
      destruct H1 as [Hin1 Ho1]. destruct H2 as (Hin2 & Ho2 & _).
      assert (t1 = t2)
        by (eapply (NoDup_map_In_eq Trip.id); eauto; congruence).
      subst t2. contradiction.
Qed.

Lemma composeRead_is_view db t : is_view_of db t (composeRead db t).
Proof.
  unfold is_view_of, composeRead, _trip_to_read, _fetch_flights,
    _fetch_hotels, _fetch_share_ids. simpl.
  repeat split; try reflexivity.
  - intros Hin. apply in_map_iff in Hin. destruct Hin as (s & E & Hs).
    apply filter_In in Hs. destruct Hs as [Hs Et]. apply Z.eqb_eq in Et.
    exists s. auto.
  - intros (s & Hs & Et & E). apply in_map_iff. exists s.
    split; [exact E|]. apply filter_In. split; [exact Hs|].
    now apply Z.eqb_eq.
Qed.

(** C6. The TripView returned for a trip the requester may read, by
    GET /trips/{id} and by the two append routes, carries the trip's id,
    name, owner_id, start_date and end_date, the stored Flights and the
    stored Hotels whose trip_id is the trip's id, and the user ids of the
    stored TripShare rows on the trip's id, no more and no less. *)
Theorem readable_trip_view now db u trip_id t flight hotel :
  session_get_Trip db trip_id = Some t ->
  owner_or_shared db (User.id u) t ->
  (exists view,
      app now (GET_trips_id u trip_id) db
      = (db, mkResponse HTTP_200_OK (Body_TripRead view))
      /\ is_view_of db t view)
  /\ (exists db' view,
        app now (POST_trips_id_flights u trip_id flight) db
        = (db', mkResponse HTTP_200_OK (Body_TripRead view))
        /\ is_view_of db' t view)
  /\ (exists db' view,
        app now (POST_trips_id_hotels u trip_id hotel) db
        = (db', mkResponse HTTP_200_OK (Body_TripRead view))
        /\ is_view_of db' t view).
Proof.
  intros Hget Hacc.
  destruct (session_get_Trip_Some _ _ _ Hget) as [_ Eid].
  apply (access_check db (User.id u) trip_id t Eid) in Hacc.
  subst trip_id.
  split; [|split].
  - exists (composeRead db t). split; [|apply composeRead_is_view].
    unfold_handlers. simpl. rewrite Hget, Hacc. reflexivity.
  - eexists. eexists. split.
    + unfold_handlers. simpl. rewrite Hget, Hacc.
      unfold session_get_Trip in *. simpl. rewrite Hget. reflexivity.
    + apply (composeRead_is_view _ t).
  - eexists. eexists. split.
    + unfold_handlers. simpl. rewrite Hget, Hacc.
      unfold session_get_Trip in *. simpl. rewrite Hget. reflexivity.
    + apply (composeRead_is_view _ t).
Qed.

(** ** Credentials *)

(** C7. A login with an e-mail address no stored user has and a login
    with a stored e-mail address whose password does not verify receive
    the same response, status 401 with the one detail text, and leave the
    store as it was: the response does not tell the two apart. *)
Theorem login_failures_indistinguishable now db unknown known user :
  (forall u, In u (users db) ->
             User.email u <> OAuth2PasswordRequestForm.username unknown) ->
  select_User_by_email db (OAuth2PasswordRequestForm.username known)
  = Some user ->
  verify_password (OAuth2PasswordRequestForm.password known)
                  (User.hashed_password user) = false ->
  app now (POST_auth_login unknown) db
  = (db, mkResponse HTTP_401_UNAUTHORIZED
           (Body_detail "Incorrect email or password"))
  /\ app now (POST_auth_login known) db
     = app now (POST_auth_login unknown) db.
Proof.
  intros Hunknown Hknown Hwrong.
  apply select_User_by_email_None in Hunknown.
  unfold_handlers. simpl. rewrite Hunknown, Hknown, Hwrong. simpl. auto.
Qed.

(** C9. Registering an e-mail address that a stored user already has
    fails with 400; no user row is added and the stored user's record
    (id, email, password hash) is left as it was, as is the whole store. *)
Theorem register_duplicate_email_rejected now db user_create first :
  In first (users db) ->
  User.email first = UserCreate.email user_create ->
  let out := app now (POST_auth_register user_create) db in
  snd out = mkResponse HTTP_400_BAD_REQUEST
                       (Body_detail "Email already registered")
  /\ fst out = db
  /\ users (fst out) = users db
  /\ In first (users (fst out)).
Proof.
  intros Hin Hemail out. subst out. unfold_handlers. simpl.
  destruct (select_User_by_email db (UserCreate.email user_create)) eqn:E.
  - simpl. auto.
  - exfalso.
    exact (proj1 (select_User_by_email_None db _) E first Hin Hemail).
Qed.

(** ** Outcomes of the routes at large *)

(* The store after one more TripShare, Flight or Hotel row. *)
Lemma add_flight_eq trip_id flight u db :
  add_flight trip_id flight u db
  = match session_get_Trip db trip_id with
    | None =>
        (db, Raise (mkHTTPException HTTP_404_NOT_FOUND "Trip not found"))
    | Some t =>
        if negb (Trip.owner_id t =? User.id u)
           && negb (_user_has_access db (User.id u) trip_id)
        then (db, Raise (mkHTTPException HTTP_403_FORBIDDEN
                                         "Not authorized for this trip"))
        else
          let db' := fst (add_Flight trip_id flight db) in
          (db', Return (_trip_to_read t (_fetch_flights db' trip_id)
                                      (_fetch_hotels db' trip_id)
                                      (_fetch_share_ids db' trip_id)))
    end.
Proof.
  unfold_handlers. simpl.
  destruct (session_get_Trip db trip_id) as [t|] eqn:Hget; [|reflexivity].
  destruct (negb (Trip.owner_id t =? User.id u)
            && negb (_user_has_access db (User.id u) trip_id));
    [reflexivity|].
  unfold session_get_Trip in *. simpl. rewrite Hget. reflexivity.
Qed.

Lemma add_hotel_eq trip_id hotel u db :
  add_hotel trip_id hotel u db
  = match session_get_Trip db trip_id with
    | None =>
        (db, Raise (mkHTTPException HTTP_404_NOT_FOUND "Trip not found"))
    | Some t =>
        if negb (Trip.owner_id t =? User.id u)
           && negb (_user_has_access db (User.id u) trip_id)
        then (db, Raise (mkHTTPException HTTP_403_FORBIDDEN
                                         "Not authorized for this trip"))
        else
          let db' := fst (add_Hotel trip_id hotel db) in
          (db', Return (_trip_to_read t (_fetch_flights db' trip_id)
                                      (_fetch_hotels db' trip_id)
                                      (_fetch_share_ids db' trip_id)))
    end.
Proof.
  unfold_handlers. simpl.
  destruct (session_get_Trip db trip_id) as [t|] eqn:Hget; [|reflexivity].
  destruct (negb (Trip.owner_id t =? User.id u)
            && negb (_user_has_access db (User.id u) trip_id));
    [reflexivity|].
  unfold session_get_Trip in *. simpl. rewrite Hget. reflexivity.
Qed.

Ltac failed_unchanged :=
  simpl; intros Hfail;
  first [reflexivity | exfalso; vm_compute in Hfail; discriminate Hfail].

(** X1. A request that is not answered with a 2xx status leaves the store
    exactly as it was: every handler raises before its first insert. *)
Theorem failed_request_leaves_store now request db :
  is_success (snd (app now request db)) = false ->
  fst (app now request db) = db.
Proof.
  destruct request; simpl.
  - unfold_handlers. break_match; failed_unchanged.
  - unfold_handlers. break_match; failed_unchanged.
  - destruct (create_trip_effect now trip_create current_user db)
      as (fr & hr & E & _). rewrite E. simpl. discriminate.
  - reflexivity.
  - unfold_handlers. break_match; failed_unchanged.
  - unfold_handlers. break_match; failed_unchanged.
  - rewrite add_flight_eq. break_match; failed_unchanged.
  - rewrite add_hotel_eq. break_match; failed_unchanged.
Qed.

(** X2. Logging in, listing trips and reading one trip never write: the
    store after the request is the store before it, whatever the answer. *)
Theorem read_routes_leave_store now db form_data u trip_id :
  fst (app now (POST_auth_login form_data) db) = db
  /\ fst (app now (GET_trips u) db) = db
  /\ fst (app now (GET_trips_id u trip_id) db) = db.
Proof.
  repeat split; unfold_handlers; simpl; break_match; reflexivity.
Qed.

(** X3. The statuses the handlers themselves produce, route by route,
    for a request that has reached its handler and is served on its own:
    register returns (201) or raises 400; login returns (200) or raises
    401; create_trip and list_trips only return (201, 200); get_trip
    returns (200) or raises 403 or 404; share_trip returns (204) or
    raises 400, 403 or 404; add_flight and add_hotel return (200) or
    raise 403 or 404, so the read-back of the trip after the insert never
    misses the row.  Responses made outside the handlers (payload
    validation, authentication, store failures) are not part of this. *)
Theorem handler_statuses_by_route now request db :
  let status := response_status (snd (app now request db)) in
  match request with
  | POST_auth_register _ =>
      In status [HTTP_201_CREATED; HTTP_400_BAD_REQUEST]
  | POST_auth_login _ =>
      In status [HTTP_200_OK; HTTP_401_UNAUTHORIZED]
  | POST_trips _ _ => status = HTTP_201_CREATED
  | GET_trips _ => status = HTTP_200_OK
  | GET_trips_id _ _ =>
      In status [HTTP_200_OK; HTTP_403_FORBIDDEN; HTTP_404_NOT_FOUND]
  | POST_trips_id_share _ _ _ =>
      In status [HTTP_204_NO_CONTENT; HTTP_400_BAD_REQUEST;
                 HTTP_403_FORBIDDEN; HTTP_404_NOT_FOUND]
  | POST_trips_id_flights _ _ _ =>
      In status [HTTP_200_OK; HTTP_403_FORBIDDEN; HTTP_404_NOT_FOUND]
  | POST_trips_id_hotels _ _ _ =>
      In status [HTTP_200_OK; HTTP_403_FORBIDDEN; HTTP_404_NOT_FOUND]
  end.
Proof.
  destruct request; simpl.
  - unfold_handlers. break_match; simpl; tauto.
  - unfold_handlers. break_match; simpl; tauto.
  - destruct (create_trip_effect now trip_create current_user db)
      as (fr & hr & E & _). rewrite E. reflexivity.
  - reflexivity.
  - unfold_handlers. break_match; simpl; tauto.
  - unfold_handlers. break_match; simpl; tauto.
  - rewrite add_flight_eq. break_match; simpl; tauto.
  - rewrite add_hotel_eq. break_match; simpl; tauto.
Qed.

(** ** Rows are only ever appended *)

(* Every table of [db'] is the table of [db] followed by further rows. *)
Definition extends (db db' : Database) : Prop :=
  (exists rows, users db' = users db ++ rows)
  /\ (exists rows, trips db' = trips db ++ rows)
  /\ (exists rows, flights db' = flights db ++ rows)
  /\ (exists rows, hotels db' = hotels db ++ rows)
  /\ (exists rows, shares db' = shares db ++ rows).

Lemma extends_refl db : extends db db.
Proof.
  repeat split; exists []; now rewrite app_nil_r.
Qed.

Lemma extends_trans db1 db2 db3 :
  extends db1 db2 -> extends db2 db3 -> extends db1 db3.
Proof.
  intros (U1 & T1 & F1 & H1 & S1) (U2 & T2 & F2 & H2 & S2).
  destruct U1 as [u1 U1], U2 as [u2 U2], T1 as [t1 T1], T2 as [t2 T2],
    F1 as [f1 F1], F2 as [f2 F2], H1 as [h1 H1], H2 as [h2 H2],
    S1 as [s1 S1], S2 as [s2 S2].
  repeat split; eexists.
  - rewrite U2, U1, <- app_assoc. reflexivity.
  - rewrite T2, T1, <- app_assoc. reflexivity.
  - rewrite F2, F1, <- app_assoc. reflexivity.
  - rewrite H2, H1, <- app_assoc. reflexivity.
  - rewrite S2, S1, <- app_assoc. reflexivity.
Qed.

Lemma extends_one_table db us ts fs hs ss :
  extends db (mkDatabase (users db ++ us) (trips db ++ ts)
                         (flights db ++ fs) (hotels db ++ hs)
                         (shares db ++ ss)).
Proof. repeat split; simpl; eauto. Qed.

Lemma app_extends now request db : extends db (fst (app now request db)).
Proof.
  assert (Hsame : forall d, d = db -> extends db d)
    by (intros d ->; apply extends_refl).
  assert (Hnil : forall A (l : list A), l = l ++ [])
    by (intros; now rewrite app_nil_r).
  destruct request; simpl.
  - unfold_handlers. break_match; try (now apply Hsame).
    rewrite (Hnil _ (trips db)), (Hnil _ (flights db)),
      (Hnil _ (hotels db)), (Hnil _ (shares db)).
    apply extends_one_table.
  - apply Hsame. unfold_handlers. break_match; reflexivity.
  - destruct (create_trip_effect now trip_create current_user db)
      as (fr & hr & E & _). rewrite E. simpl.
    rewrite (Hnil _ (users db)), (Hnil _ (shares db)).
    apply extends_one_table.
  - now apply Hsame.
  - apply Hsame. unfold_handlers. break_match; reflexivity.
  - unfold_handlers. break_match; try (now apply Hsame).
    rewrite (Hnil _ (users db)), (Hnil _ (trips db)),
      (Hnil _ (flights db)), (Hnil _ (hotels db)).
    apply extends_one_table.
  - rewrite add_flight_eq. break_match; try (now apply Hsame).
    unfold add_Flight. simpl.
    rewrite (Hnil _ (users db)), (Hnil _ (trips db)),
      (Hnil _ (hotels db)), (Hnil _ (shares db)).
    apply extends_one_table.
  - rewrite add_hotel_eq. break_match; try (now apply Hsame).
    unfold add_Hotel. simpl.
    rewrite (Hnil _ (users db)), (Hnil _ (trips db)),
      (Hnil _ (flights db)), (Hnil _ (shares db)).
    apply extends_one_table.
Qed.

(** X4. The store is append-only: after any sequence of requests every
    table is the table it was followed by new rows, so no stored user,
    trip, flight, hotel or share is ever changed, reordered or removed. *)
Theorem store_is_append_only reqs db : extends db (run reqs db).
Proof.
  revert db. induction reqs as [|[now request] reqs IH]; intros db; simpl.
  - apply extends_refl.
  - eapply extends_trans; [apply app_extends|apply IH].
Qed.

(** ** Registration and login *)

Lemma find_snoc_new {A} (f : A -> bool) (l : list A) (a : A) :
  find f l = None -> f a = true -> find f (l ++ [a]) = Some a.
Proof.
  intros Hnone Ha. rewrite (find_app_None _ _ _ Hnone). simpl.
  now rewrite Ha.
Qed.

(** X5. Registering an e-mail address no stored user has answers 201 with
    the new user's id and e-mail address; the id is used by no user stored
    before, the one new row holds the hash of the password and the clock
    reading, it is appended to the user table, and the other tables are
    as they were. *)
Theorem register_new_email_creates_user now db user_create :
  (forall u, In u (users db) ->
             User.email u <> UserCreate.email user_create) ->
  let user :=
    User.Build (next_id (map User.id (users db)))
               (UserCreate.email user_create)
               (get_password_hash (UserCreate.password user_create)) now in
  app now (POST_auth_register user_create) db
  = (mkDatabase (users db ++ [user]) (trips db) (flights db) (hotels db)
                (shares db),
     mkResponse HTTP_201_CREATED
       (Body_UserRead
          (UserRead.Build (User.id user) (UserCreate.email user_create))))
  /\ (forall u, In u (users db) -> User.id u <> User.id user)
  /\ select_User_by_email (fst (app now (POST_auth_register user_create) db))
                          (UserCreate.email user_create) = Some user.
Proof.
  intros Hfresh user.
  apply select_User_by_email_None in Hfresh.
  assert (E : app now (POST_auth_register user_create) db
              = (mkDatabase (users db ++ [user]) (trips db) (flights db)
                            (hotels db) (shares db),
                 mkResponse HTTP_201_CREATED
                   (Body_UserRead
                      (UserRead.Build (User.id user)
                                      (UserCreate.email user_create))))).
  { unfold_handlers. simpl. rewrite Hfresh. reflexivity. }
  split; [exact E|]. split.
  - intros u Hin Heq.
    apply (next_id_fresh (map User.id (users db))).
    change (next_id (map User.id (users db))) with (User.id user).
    rewrite <- Heq. now apply in_map.
  - rewrite E. unfold select_User_by_email in *. simpl.
    apply find_snoc_new; [exact Hfresh|]. simpl. apply String.eqb_refl.
Qed.

(** X6. Register, then log in: when the hash verifier accepts a password
    against its own hash, a login with the e-mail address and password
    just registered answers 200 with a bearer token issued for the id that
    the registration returned, and does not change the store. *)
Theorem register_then_login now now' db user_create :
  (forall password,
      verify_password password (get_password_hash password) = true) ->
  (forall u, In u (users db) ->
             User.email u <> UserCreate.email user_create) ->
  let db' := fst (app now (POST_auth_register user_create) db) in
  app now' (POST_auth_login
              (OAuth2PasswordRequestForm.Build
                 (UserCreate.email user_create)
                 (UserCreate.password user_create))) db'
  = (db', mkResponse HTTP_200_OK
            (Body_Token
               (Token.Build
                  (create_access_token (next_id (map User.id (users db))))
                  "bearer")))
  /\ snd (app now (POST_auth_register user_create) db)
     = mkResponse HTTP_201_CREATED
         (Body_UserRead
            (UserRead.Build (next_id (map User.id (users db)))
                            (UserCreate.email user_create))).
Proof.
  intros Hverify Hfresh db'.
  apply select_User_by_email_None in Hfresh.
  assert (E : app now (POST_auth_register user_create) db
              = (mkDatabase
                   (users db
                    ++ [User.Build (next_id (map User.id (users db)))
                          (UserCreate.email user_create)
                          (get_password_hash (UserCreate.password user_create))
                          now])
                   (trips db) (flights db) (hotels db) (shares db),
                 mkResponse HTTP_201_CREATED
                   (Body_UserRead
                      (UserRead.Build (next_id (map User.id (users db)))
                                      (UserCreate.email user_create))))).
  { unfold_handlers. simpl. rewrite Hfresh. reflexivity. }
  subst db'. rewrite E. simpl. split; [|reflexivity].
  unfold_handlers. simpl. unfold select_User_by_email in *. simpl.
  rewrite (find_snoc_new _ _ _ Hfresh) by (simpl; apply String.eqb_refl).
  simpl. rewrite Hverify. reflexivity.
Qed.

(** X7. A login succeeds exactly when the user found for the e-mail
    address has a stored hash that verifies the password; the token is
    then the one issued for that user's id.  No login succeeds for an
    address that no stored user has. *)
Theorem login_success_iff now db form_data :
  (is_success (snd (app now (POST_auth_login form_data) db)) = true
   <-> exists user,
        select_User_by_email db
          (OAuth2PasswordRequestForm.username form_data) = Some user
        /\ verify_password (OAuth2PasswordRequestForm.password form_data)
                           (User.hashed_password user) = true)
  /\ (forall user,
        select_User_by_email db
          (OAuth2PasswordRequestForm.username form_data) = Some user ->
        verify_password (OAuth2PasswordRequestForm.password form_data)
                        (User.hashed_password user) = true ->
        In user (users db)
        /\ snd (app now (POST_auth_login form_data) db)
           = mkResponse HTTP_200_OK
               (Body_Token
                  (Token.Build (create_access_token (User.id user))
                               "bearer"))).
Proof.
  unfold_handlers. simpl.
  destruct (select_User_by_email db
              (OAuth2PasswordRequestForm.username form_data))
    as [user|] eqn:Hsel.
  - destruct (verify_password (OAuth2PasswordRequestForm.password form_data)
                              (User.hashed_password user)) eqn:Hv; simpl.
    + split.
      * split; [intros _; exists user; auto|reflexivity].
      * intros user' E _. injection E as <-. split; [|reflexivity].
        now apply select_User_by_email_Some in Hsel.
    + split.
      * split; [discriminate|].
        intros (user' & E & Hv'). injection E as <-. congruence.
      * intros user' E Hv'. injection E as <-. congruence.
  - split.
    + split; [discriminate|]. intros (user' & E & _). discriminate E.
    + intros user' E. discriminate E.
Qed.

(** ** Creating a trip; keys and references of flights and hotels *)

(* The request payload a stored row was built from. *)
Definition Flight_payload (f : Flight.t) : FlightCreate.t :=
  FlightCreate.Build (Flight.airline f) (Flight.departure_airport f)
                     (Flight.arrival_airport f) (Flight.departure_time f)
                     (Flight.arrival_time f).

Definition Hotel_payload (h : Hotel.t) : HotelCreate.t :=
  HotelCreate.Build (Hotel.name h) (Hotel.city h) (Hotel.check_in h)
                    (Hotel.check_out h).

(* Flights and hotels have unique ids and reference stored trips. *)
Record referential (db : Database) : Prop := mk_referential
  { flight_ids_unique : NoDup (map Flight.id (flights db));
    hotel_ids_unique : NoDup (map Hotel.id (hotels db));
    flight_trip_exists :
      forall f, In f (flights db) ->
                exists t, In t (trips db) /\ Trip.id t = Flight.trip_id f;
    hotel_trip_exists :
      forall h, In h (hotels db) ->
                exists t, In t (trips db) /\ Trip.id t = Hotel.trip_id h }.

Lemma add_all_Flight_rows trip_id (xs : list FlightCreate.t) db :
  exists rows,
    add_all (add_Flight trip_id) xs db
    = (mkDatabase (users db) (trips db) (flights db ++ rows) (hotels db)
                  (shares db), Return rows)
    /\ Forall (fun f => Flight.trip_id f = trip_id) rows
    /\ map Flight_payload rows = xs
    /\ (NoDup (map Flight.id (flights db)) ->
        NoDup (map Flight.id (flights db ++ rows))).
Proof.
  revert db. induction xs as [|x xs IH]; intros db; simpl.
  - exists []. rewrite app_nil_r. repeat split; auto.
    unfold ret. now destruct db.
  - unfold bind at 1. unfold add_Flight at 1. unfold bind at 1.
    match goal with
    | |- context [add_all _ xs ?d] =>
        destruct (IH d) as (rows & E & HF & HP & HN)
    end.
    rewrite E. simpl in *. unfold ret.
    eexists. split; [|split; [|split]].
    + rewrite <- app_assoc. simpl. reflexivity.
    + constructor; [reflexivity|exact HF].
    + simpl. rewrite HP. now destruct x.
    + intros ND. rewrite <- app_assoc in HN. simpl in HN. apply HN.
      rewrite map_app. simpl. apply NoDup_snoc; [exact ND|].
      apply next_id_fresh.
Qed.

Lemma add_all_Hotel_rows trip_id (xs : list HotelCreate.t) db :
  exists rows,
    add_all (add_Hotel trip_id) xs db
    = (mkDatabase (users db) (trips db) (flights db) (hotels db ++ rows)
                  (shares db), Return rows)
    /\ Forall (fun h => Hotel.trip_id h = trip_id) rows
    /\ map Hotel_payload rows = xs
    /\ (NoDup (map Hotel.id (hotels db)) ->
        NoDup (map Hotel.id (hotels db ++ rows))).
Proof.
  revert db. induction xs as [|x xs IH]; intros db; simpl.
  - exists []. rewrite app_nil_r. repeat split; auto.
    unfold ret. now destruct db.
  - unfold bind at 1. unfold add_Hotel at 1. unfold bind at 1.
    match goal with
    | |- context [add_all _ xs ?d] =>
        destruct (IH d) as (rows & E & HF & HP & HN)
    end.
    rewrite E. simpl in *. unfold ret.
    eexists. split; [|split; [|split]].
    + rewrite <- app_assoc. simpl. reflexivity.
    + constructor; [reflexivity|exact HF].
    + simpl. rewrite HP. now destruct x.
    + intros ND. rewrite <- app_assoc in HN. simpl in HN. apply HN.
      rewrite map_app. simpl. apply NoDup_snoc; [exact ND|].
      apply next_id_fresh.
Qed.

Lemma create_trip_rows now trip_create current_user db :
  let trip := Trip.Build (next_id (map Trip.id (trips db)))
                (TripCreate.name trip_create) (User.id current_user)
                (TripCreate.start_date trip_create)
                (TripCreate.end_date trip_create) now in
  exists frows hrows,
    create_trip now trip_create current_user db
    = (mkDatabase (users db) (trips db ++ [trip]) (flights db ++ frows)
                  (hotels db ++ hrows) (shares db),
       Return (_trip_to_read trip frows hrows []))
    /\ Forall (fun f => Flight.trip_id f = Trip.id trip) frows
    /\ Forall (fun h => Hotel.trip_id h = Trip.id trip) hrows
    /\ map Flight_payload frows = TripCreate.flights trip_create
    /\ map Hotel_payload hrows = TripCreate.hotels trip_create
    /\ (NoDup (map Flight.id (flights db)) ->
        NoDup (map Flight.id (flights db ++ frows)))
    /\ (NoDup (map Hotel.id (hotels db)) ->
        NoDup (map Hotel.id (hotels db ++ hrows))).
Proof.
  intros trip. unfold create_trip, bind, add_Trip. fold trip.
  match goal with
  | |- context [add_all (add_Flight ?i) ?xs ?d] =>
      destruct (add_all_Flight_rows i xs d) as (frows & E1 & F1 & P1 & N1)
  end.
  rewrite E1. simpl in *.
  match goal with
  | |- context [add_all (add_Hotel ?i) ?xs ?d] =>
      destruct (add_all_Hotel_rows i xs d) as (hrows & E2 & F2 & P2 & N2)
  end.
  rewrite E2. simpl in *. exists frows, hrows. repeat split; auto.
Qed.

Lemma referential_empty : referential empty_db.
Proof. constructor; simpl; try constructor; contradiction. Qed.

Lemma referential_step now request db :
  referential db -> referential (fst (app now request db)).
Proof.
  intros R.
  assert (Hsame : forall d,
             trips d = trips db -> flights d = flights db ->
             hotels d = hotels db -> referential d).
  { intros d Et Ef Eh. destruct R. constructor; rewrite ?Et, ?Ef, ?Eh; auto. }
  destruct request; simpl.
  - unfold_handlers. break_match; now apply Hsame.
  - unfold_handlers. break_match; now apply Hsame.
  - destruct (create_trip_rows now trip_create current_user db)
      as (fr & hr & E & F1 & F2 & _ & _ & N1 & N2).
    rewrite E. simpl. rewrite Forall_forall in F1, F2.
    constructor; simpl.
    + apply N1, R.
    + apply N2, R.
    + intros f Hin. apply in_app_or in Hin. destruct Hin as [Hin|Hin].
      * destruct (flight_trip_exists db R f Hin) as (t & Ht & Et).
        exists t. split; [apply in_or_app; now left|exact Et].
      * eexists. split; [apply in_or_app; right; now left|].
        symmetry. exact (F1 f Hin).
    + intros h Hin. apply in_app_or in Hin. destruct Hin as [Hin|Hin].
      * destruct (hotel_trip_exists db R h Hin) as (t & Ht & Et).
        exists t. split; [apply in_or_app; now left|exact Et].
      * eexists. split; [apply in_or_app; right; now left|].
        symmetry. exact (F2 h Hin).
  - now apply Hsame.
  - unfold_handlers. break_match; now apply Hsame.
  - unfold_handlers. break_match; now apply Hsame.
  - rewrite add_flight_eq.
    destruct (session_get_Trip db trip_id) as [t|] eqn:Hget; simpl;
      [|now apply Hsame].
    destruct (negb _ && negb _); simpl; [now apply Hsame|].
    apply session_get_Trip_Some in Hget. destruct Hget as [Hin Eid].
    constructor; simpl; try apply R.
    + rewrite map_app. simpl. apply NoDup_snoc; [apply R|].
      apply next_id_fresh.
    + intros f Hf. apply in_app_or in Hf. destruct Hf as [Hf|[<-|[]]].
      * now apply (flight_trip_exists db R).
      * exists t. auto.
  - rewrite add_hotel_eq.
    destruct (session_get_Trip db trip_id) as [t|] eqn:Hget; simpl;
      [|now apply Hsame].
    destruct (negb _ && negb _); simpl; [now apply Hsame|].
    apply session_get_Trip_Some in Hget. destruct Hget as [Hin Eid].
    constructor; simpl; try apply R.
    + rewrite map_app. simpl. apply NoDup_snoc; [apply R|].
      apply next_id_fresh.
    + intros h Hh. apply in_app_or in Hh. destruct Hh as [Hh|[<-|[]]].
      * now apply (hotel_trip_exists db R).
      * exists t. auto.
Qed.

Lemma reachable_referential db : reachable db -> referential db.
Proof.
  induction 1 as [|db now request _ IH].
  - exact referential_empty.
  - now apply referential_step.
Qed.

(** X8. Referential integrity holds in every reachable state: each stored
    Flight and each stored Hotel references a stored Trip, and each stored
    TripShare references a stored Trip and a stored User. *)
Theorem reachable_references_resolve db :
  reachable db ->
  (forall f, In f (flights db) ->
             exists t, In t (trips db) /\ Trip.id t = Flight.trip_id f)
  /\ (forall h, In h (hotels db) ->
                exists t, In t (trips db) /\ Trip.id t = Hotel.trip_id h)
  /\ (forall s, In s (shares db) ->
                (exists t, In t (trips db)
                           /\ Trip.id t = TripShare.trip_id s)
                /\ (exists u, In u (users db)
                              /\ User.id u = TripShare.user_id s)).
Proof.
  intros H.
  pose proof (reachable_referential db H) as R.
  pose proof (reachable_consistent db H) as C.
  split; [apply R|]. split; [apply R|].
  intros s Hs. split; [now apply C|now apply C].
Qed.

(** X9. Keys stay unique in every reachable state: no two users share an
    id or an e-mail address, and no two trips, no two flights and no two
    hotels share an id. *)
Theorem reachable_keys_unique db :
  reachable db ->
  NoDup (map User.id (users db))
  /\ NoDup (map User.email (users db))
  /\ NoDup (map Trip.id (trips db))
  /\ NoDup (map Flight.id (flights db))
  /\ NoDup (map Hotel.id (hotels db)).
Proof.
  intros H.
  pose proof (reachable_referential db H) as R.
  pose proof (reachable_consistent db H) as C.
  repeat split; first [apply C|apply R].
Qed.

(* The request payload shown in a read model. *)
Definition FlightRead_payload (f : FlightRead.t) : FlightCreate.t :=
  FlightCreate.Build (FlightRead.airline f) (FlightRead.departure_airport f)
                     (FlightRead.arrival_airport f)
                     (FlightRead.departure_time f) (FlightRead.arrival_time f).

Definition HotelRead_payload (h : HotelRead.t) : HotelCreate.t :=
  HotelCreate.Build (HotelRead.name h) (HotelRead.city h)
                    (HotelRead.check_in h) (HotelRead.check_out h).

Lemma filter_all {A} (f : A -> bool) (l : list A) :
  (forall x, In x l -> f x = true) -> filter f l = l.
Proof.
  induction l as [|a l IH]; simpl; intros H; [reflexivity|].
  rewrite (H a) by now left. f_equal. apply IH. intros x Hx. apply H.
  now right.
Qed.

(** X10. POST /trips always answers 201.  The view it returns has an id
    that no stored trip had, the requester as owner, the requested name
    and dates, one flight and one hotel per requested one, in the
    requested order and with the requested fields, and no share target. *)
Theorem create_trip_response now db u trip_create :
  exists view,
    snd (app now (POST_trips u trip_create) db)
    = mkResponse HTTP_201_CREATED (Body_TripRead view)
    /\ (forall t, In t (trips db) -> Trip.id t <> TripRead.id view)
    /\ TripRead.owner_id view = User.id u
    /\ TripRead.name view = TripCreate.name trip_create
    /\ TripRead.start_date view = TripCreate.start_date trip_create
    /\ TripRead.end_date view = TripCreate.end_date trip_create
    /\ map FlightRead_payload (TripRead.flights view)
       = TripCreate.flights trip_create
    /\ map HotelRead_payload (TripRead.hotels view)
       = TripCreate.hotels trip_create
    /\ TripRead.shared_with_user_ids view = [].
Proof.
  destruct (create_trip_rows now trip_create u db)
    as (fr & hr & E & _ & _ & P1 & P2 & _).
  simpl. rewrite E. simpl. eexists. split; [reflexivity|]. simpl.
  repeat split.
  - intros t Hin Heq. apply (next_id_fresh (map Trip.id (trips db))).
    rewrite <- Heq. now apply in_map.
  - rewrite map_map. rewrite <- P1. apply map_ext. now intros [].
  - rewrite map_map. rewrite <- P2. apply map_ext. now intros [].
Qed.

(** X11. Create, then read: in a reachable state, the trip just created
    can be read back by its creator, and GET /trips/{id} then returns the
    very view that POST /trips returned; any user with another id is
    answered 403, since a new trip has no share. *)
Theorem create_trip_then_get now now' db u trip_create :
  reachable db ->
  let out := app now (POST_trips u trip_create) db in
  exists view,
    snd out = mkResponse HTTP_201_CREATED (Body_TripRead view)
    /\ app now' (GET_trips_id u (TripRead.id view)) (fst out)
       = (fst out, mkResponse HTTP_200_OK (Body_TripRead view))
    /\ (forall other,
           User.id other <> User.id u ->
           response_status
             (snd (app now' (GET_trips_id other (TripRead.id view))
                       (fst out)))
           = HTTP_403_FORBIDDEN).
Proof.
  intros Hreach out. subst out.
  pose proof (reachable_referential db Hreach) as R.
  pose proof (reachable_consistent db Hreach) as C.
  destruct (create_trip_rows now trip_create u db)
    as (fr & hr & E & F1 & F2 & _).
  simpl. rewrite E. simpl.
  set (new_id := next_id (map Trip.id (trips db))) in *.
  set (trip := Trip.Build new_id (TripCreate.name trip_create) (User.id u)
                 (TripCreate.start_date trip_create)
                 (TripCreate.end_date trip_create) now) in *.
  set (db' := mkDatabase (users db) (trips db ++ [trip]) (flights db ++ fr)
                         (hotels db ++ hr) (shares db)).
  assert (Hfresh : forall t, In t (trips db) -> Trip.id t <> new_id).
  { intros t Hin Heq. apply (next_id_fresh (map Trip.id (trips db))).
    fold new_id. rewrite <- Heq. now apply in_map. }
  assert (Hget : session_get_Trip db' new_id = Some trip).
  { unfold session_get_Trip. simpl. apply find_snoc_new.
    - apply session_get_Trip_None. exact Hfresh.
    - simpl. apply Z.eqb_refl. }
  assert (Hfl : _fetch_flights db' new_id = fr).
  { unfold _fetch_flights. simpl. rewrite filter_app.
    rewrite filter_nil_iff, filter_all; [reflexivity| |].
    - rewrite Forall_forall in F1. intros f Hf. apply Z.eqb_eq.
      exact (F1 f Hf).
    - intros f Hf. apply Z.eqb_neq.
      destruct (flight_trip_exists db R f Hf) as (t & Ht & Et).
      rewrite <- Et. now apply Hfresh. }
  assert (Hho : _fetch_hotels db' new_id = hr).
  { unfold _fetch_hotels. simpl. rewrite filter_app.
    rewrite filter_nil_iff, filter_all; [reflexivity| |].
    - rewrite Forall_forall in F2. intros h Hh. apply Z.eqb_eq.
      exact (F2 h Hh).
    - intros h Hh. apply Z.eqb_neq.
      destruct (hotel_trip_exists db R h Hh) as (t & Ht & Et).
      rewrite <- Et. now apply Hfresh. }
  assert (Hnoshare : forall s, In s (shares db) ->
                               TripShare.trip_id s <> new_id).
  { intros s Hs. destruct (share_trip_exists db C s Hs) as (t & Ht & Et).
    rewrite <- Et. now apply Hfresh. }
  assert (Hsh : _fetch_share_ids db' new_id = []).
  { unfold _fetch_share_ids. simpl. rewrite filter_nil_iff; [reflexivity|].
    intros s Hs. apply Z.eqb_neq. now apply Hnoshare. }
  assert (Hacc : forall user_id, _user_has_access db' user_id new_id = false).
  { intros user_id. apply _user_has_access_false.
    intros (s & Hs & Et & _). exact (Hnoshare s Hs Et). }
  exists (_trip_to_read trip fr hr []). split; [reflexivity|].
  change (TripRead.id (_trip_to_read trip fr hr [])) with new_id.
  fold db'. split.
  - unfold_handlers. simpl. rewrite Hget. simpl.
    rewrite Z.eqb_refl. simpl. rewrite Hfl, Hho, Hsh. reflexivity.
  - intros other Hne. unfold_handlers. simpl. rewrite Hget. simpl.
    rewrite Hacc. apply not_eq_sym in Hne. apply Z.eqb_neq in Hne.
    rewrite Hne. reflexivity.
Qed.

(** ** Sharing, continued *)

(** X12. POST /trips/{id}/share succeeds exactly when the trip exists, the
    requester is its owner and the e-mail address resolves to a user other
    than the requester.  A requester who is not the owner is answered 403
    even when holding a share on the trip. *)
Theorem share_succeeds_iff_owner_and_other_target
  now db u trip_id share_request :
  (is_success (snd (app now (POST_trips_id_share u trip_id share_request) db))
   = true
   <-> exists t target,
        session_get_Trip db trip_id = Some t
        /\ Trip.owner_id t = User.id u
        /\ select_User_by_email db (ShareRequest.email share_request)
           = Some target
        /\ User.id target <> User.id u)
  /\ (forall t,
        session_get_Trip db trip_id = Some t ->
        Trip.owner_id t <> User.id u ->
        share_exists db trip_id (User.id u) ->
        app now (POST_trips_id_share u trip_id share_request) db
        = (db, mkResponse HTTP_403_FORBIDDEN
                 (Body_detail "Only the owner can share the trip"))).
Proof.
  split.
  - unfold_handlers. simpl.
    destruct (session_get_Trip db trip_id) as [t|] eqn:Hget; simpl.
    2:{ split; [discriminate|]. intros (t & g & E & _). discriminate E. }
    destruct (Trip.owner_id t =? User.id u) eqn:Eo; simpl.
    2:{ split; [discriminate|]. intros (t' & g & E & Ho & _).
        injection E as <-. apply Z.eqb_neq in Eo. contradiction. }
    destruct (select_User_by_email db (ShareRequest.email share_request))
      as [target|] eqn:Hsel; simpl.
    2:{ split; [discriminate|]. intros (t' & g & _ & _ & E & _).
        discriminate E. }
    destruct (User.id target =? User.id u) eqn:Ei; simpl.
    { split; [discriminate|]. intros (t' & g & _ & _ & E & Hne).
      injection E as <-. apply Z.eqb_eq in Ei. contradiction. }
    apply Z.eqb_eq in Eo. apply Z.eqb_neq in Ei.
    destruct (select_TripShare db trip_id (User.id target)); simpl;
      (split; [intros _; exists t, target; auto|reflexivity]).
  - intros t Hget Hne _. unfold_handlers. simpl. rewrite Hget.
    apply Z.eqb_neq in Hne. rewrite Hne. reflexivity.
Qed.

(** X13. When the owner shares a trip with an e-mail address that no
    stored user has, the answer is 404 "User to share with was not found"
    and the store is left as it was. *)
Theorem share_with_unknown_email_404 now db u trip_id t share_request :
  session_get_Trip db trip_id = Some t ->
  Trip.owner_id t = User.id u ->
  (forall v, In v (users db) ->
             User.email v <> ShareRequest.email share_request) ->
  app now (POST_trips_id_share u trip_id share_request) db
  = (db, mkResponse HTTP_404_NOT_FOUND
           (Body_detail "User to share with was not found")).
Proof.
  intros Hget Hown Hnone. apply select_User_by_email_None in Hnone.
  apply Z.eqb_eq in Hown.
  unfold_handlers. simpl. rewrite Hget, Hown, Hnone. reflexivity.
Qed.

Lemma list_trips_eq u db :
  exists views,
    list_trips u db = (db, Return views)
    /\ forall view,
        In view views
        <-> exists t, In t (trips db)
                      /\ owner_or_shared db (User.id u) t
                      /\ view = composeRead db t.
Proof.
  unfold list_trips, bind, get_session, ret.
  eexists. split; [reflexivity|].
  intros view. rewrite in_map_iff.
  assert (Hmem : forall t,
             In t (filter (fun t => Trip.owner_id t =? User.id u) (trips db)
                   ++ filter
                        (fun trip =>
                           negb (existsb (Trip.eqb trip)
                                   (filter (fun t => Trip.owner_id t
                                                     =? User.id u)
                                           (trips db))))
                        match
                          map TripShare.trip_id
                            (filter (fun s => TripShare.user_id s
                                              =? User.id u) (shares db))
                        with
                        | [] => []
                        | _ :: _ =>
                            filter
                              (fun t =>
                                 existsb (Z.eqb (Trip.id t))
                                   (map TripShare.trip_id
                                      (filter (fun s => TripShare.user_id s
                                                        =? User.id u)
                                              (shares db))))
                              (trips db)
                        end)
             <-> In t (trips db) /\ owner_or_shared db (User.id u) t).
  { intros t. rewrite in_app_iff, !filter_In, not_in_owned, In_shared_trips.
    rewrite In_shared_trip_ids, filter_In, Z.eqb_eq. unfold owner_or_shared.
    destruct (Z.eq_dec (Trip.owner_id t) (User.id u)); tauto. }
  split.
  - intros (t & E & Hin). apply Hmem in Hin. exists t.
    split; [tauto|]. split; [tauto|]. now rewrite <- E.
  - intros (t & Hin & Hacc & ->). exists t. split; [reflexivity|].
    apply Hmem. auto.
Qed.

(** X14. Share, then the target sees the trip: in a reachable state, once
    the owner has shared a trip with another stored user, that user's
    GET /trips/{id} answers 200 with a view that names them among the
    share targets, and their GET /trips lists that view. *)
Theorem share_then_target_reads now now' db o v trip_id t :
  reachable db ->
  session_get_Trip db trip_id = Some t ->
  Trip.owner_id t = User.id o ->
  In v (users db) ->
  User.id v <> User.id o ->
  let db1 :=
    fst (app now (POST_trips_id_share o trip_id
                    (ShareRequest.Build (User.email v))) db) in
  app now' (GET_trips_id v trip_id) db1
  = (db1, mkResponse HTTP_200_OK (Body_TripRead (composeRead db1 t)))
  /\ In (User.id v) (TripRead.shared_with_user_ids (composeRead db1 t))
  /\ exists views,
      app now' (GET_trips v) db1
      = (db1, mkResponse HTTP_200_OK (Body_TripRead_list views))
      /\ In (composeRead db1 t) views.
Proof.
  intros Hreach Hget Hown Hin Hne db1.
  pose proof (reachable_consistent db Hreach) as C.
  pose proof (select_User_by_email_unique db v (emails_unique db C) Hin)
    as Hsel.
  pose proof (share_trip_granted now db o trip_id t v
                (ShareRequest.Build (User.email v)) Hget Hown Hsel Hne) as E1.
  destruct (session_get_Trip_Some _ _ _ Hget) as [Htin Eid].
  assert (Htrips : trips db1 = trips db).
  { subst db1. rewrite E1. simpl.
    now destruct (select_TripShare db trip_id (User.id v)). }
  assert (Hshared : share_exists db1 (Trip.id t) (User.id v)).
  { rewrite Eid. apply _user_has_access_true. unfold _user_has_access.
    subst db1. rewrite E1. simpl.
    destruct (select_TripShare db trip_id (User.id v)) as [s|] eqn:Es.
    - now rewrite Es.
    - unfold select_TripShare in *. simpl.
      rewrite (find_app_None _ _ _ Es). simpl. now rewrite !Z.eqb_refl. }
  assert (Hget1 : session_get_Trip db1 trip_id = Some t).
  { rewrite <- Hget. now apply session_get_Trip_frame. }
  assert (Hacc : owner_or_shared db1 (User.id v) t) by now right.
  split; [|split].
  - apply (access_check db1 (User.id v) trip_id t Eid) in Hacc.
    unfold_handlers. simpl. rewrite Hget1, Hacc. subst trip_id.
    reflexivity.
  - apply (composeRead_is_view db1 t). exact Hshared.
  - destruct (list_trips_eq v db1) as (views & E & Hviews).
    exists views. split.
    + unfold app. rewrite E. reflexivity.
    + apply Hviews. exists t. rewrite Htrips. auto.
Qed.

(** ** Appending to a trip; listing against reading *)

(** X15. An authorized POST /trips/{id}/flights appends one Flight row
    with an id no stored flight had, and answers 200 with the trip's
    previous view extended by that flight at the end of its flight list;
    hotels and share targets in the view are as before, and the view of
    every trip with another id is untouched. *)
Theorem add_flight_extends_view now db u trip_id t flight :
  session_get_Trip db trip_id = Some t ->
  owner_or_shared db (User.id u) t ->
  let out := app now (POST_trips_id_flights u trip_id flight) db in
  let row :=
    Flight.Build (next_id (map Flight.id (flights db))) trip_id
                 (FlightCreate.airline flight)
                 (FlightCreate.departure_airport flight)
                 (FlightCreate.arrival_airport flight)
                 (FlightCreate.departure_time flight)
                 (FlightCreate.arrival_time flight) in
  fst out = mkDatabase (users db) (trips db) (flights db ++ [row])
                       (hotels db) (shares db)
  /\ (forall f, In f (flights db) -> Flight.id f <> Flight.id row)
  /\ snd out = mkResponse HTTP_200_OK (Body_TripRead (composeRead (fst out) t))
  /\ TripRead.flights (composeRead (fst out) t)
     = TripRead.flights (composeRead db t) ++ [FlightRead.of_row row]
  /\ TripRead.hotels (composeRead (fst out) t)
     = TripRead.hotels (composeRead db t)
  /\ TripRead.shared_with_user_ids (composeRead (fst out) t)
     = TripRead.shared_with_user_ids (composeRead db t)
  /\ (forall other,
         Trip.id other <> trip_id ->
         composeRead (fst out) other = composeRead db other).
Proof.
  intros Hget Hacc out row.
  destruct (session_get_Trip_Some _ _ _ Hget) as [_ Eid].
  apply (access_check db (User.id u) trip_id t Eid) in Hacc.
  assert (E : out = (mkDatabase (users db) (trips db) (flights db ++ [row])
                                (hotels db) (shares db),
                     mkResponse HTTP_200_OK
                       (Body_TripRead
                          (composeRead
                             (mkDatabase (users db) (trips db)
                                (flights db ++ [row]) (hotels db)
                                (shares db)) t)))).
  { subst out. unfold app. rewrite add_flight_eq, Hget, Hacc.
    subst trip_id. reflexivity. }
  rewrite E. simpl. split; [reflexivity|]. split.
  - intros f Hf Heq. apply (next_id_fresh (map Flight.id (flights db))).
    rewrite <- Heq. now apply in_map.
  - split; [reflexivity|].
    unfold composeRead, _trip_to_read, _fetch_flights, _fetch_hotels,
      _fetch_share_ids. simpl.
    rewrite filter_app, map_app. simpl. rewrite Eid, Z.eqb_refl. simpl.
    repeat split.
    intros other Hne. rewrite filter_app. simpl.
    apply not_eq_sym in Hne. apply Z.eqb_neq in Hne. rewrite Hne.
    now rewrite app_nil_r.
Qed.

(** X16. An authorized POST /trips/{id}/hotels appends one Hotel row with
    an id no stored hotel had, and answers 200 with the trip's previous
    view extended by that hotel at the end of its hotel list; flights and
    share targets in the view are as before, and the view of every trip
    with another id is untouched. *)
Theorem add_hotel_extends_view now db u trip_id t hotel :
  session_get_Trip db trip_id = Some t ->
  owner_or_shared db (User.id u) t ->
  let out := app now (POST_trips_id_hotels u trip_id hotel) db in
  let row :=
    Hotel.Build (next_id (map Hotel.id (hotels db))) trip_id
                (HotelCreate.name hotel) (HotelCreate.city hotel)
                (HotelCreate.check_in hotel) (HotelCreate.check_out hotel) in
  fst out = mkDatabase (users db) (trips db) (flights db)
                       (hotels db ++ [row]) (shares db)
  /\ (forall h, In h (hotels db) -> Hotel.id h <> Hotel.id row)
  /\ snd out = mkResponse HTTP_200_OK (Body_TripRead (composeRead (fst out) t))
  /\ TripRead.hotels (composeRead (fst out) t)
     = TripRead.hotels (composeRead db t) ++ [HotelRead.of_row row]
  /\ TripRead.flights (composeRead (fst out) t)
     = TripRead.flights (composeRead db t)
  /\ TripRead.shared_with_user_ids (composeRead (fst out) t)
     = TripRead.shared_with_user_ids (composeRead db t)
  /\ (forall other,
         Trip.id other <> trip_id ->
         composeRead (fst out) other = composeRead db other).
Proof.
  intros Hget Hacc out row.
  destruct (session_get_Trip_Some _ _ _ Hget) as [_ Eid].
  apply (access_check db (User.id u) trip_id t Eid) in Hacc.
  assert (E : out = (mkDatabase (users db) (trips db) (flights db)
                                (hotels db ++ [row]) (shares db),
                     mkResponse HTTP_200_OK
                       (Body_TripRead
                          (composeRead
                             (mkDatabase (users db) (trips db) (flights db)
                                (hotels db ++ [row]) (shares db)) t)))).
  { subst out. unfold app. rewrite add_hotel_eq, Hget, Hacc.
    subst trip_id. reflexivity. }
  rewrite E. simpl. split; [reflexivity|]. split.
  - intros h Hh Heq. apply (next_id_fresh (map Hotel.id (hotels db))).
    rewrite <- Heq. now apply in_map.
  - split; [reflexivity|].
    unfold composeRead, _trip_to_read, _fetch_flights, _fetch_hotels,
      _fetch_share_ids. simpl.
    rewrite filter_app, map_app. simpl. rewrite Eid, Z.eqb_refl. simpl.
    repeat split.
    intros other Hne. rewrite filter_app. simpl.
    apply not_eq_sym in Hne. apply Z.eqb_neq in Hne. rewrite Hne.
    now rewrite app_nil_r.
Qed.

(** X17. Listing agrees with reading: in a reachable state a view is in
    the answer of GET /trips exactly when GET /trips/{id} for the view's
    id answers the same user 200 with that view. *)
Theorem list_trips_agrees_with_get_trip now db u :
  reachable db ->
  exists views,
    app now (GET_trips u) db
    = (db, mkResponse HTTP_200_OK (Body_TripRead_list views))
    /\ forall view,
        In view views
        <-> app now (GET_trips_id u (TripRead.id view)) db
            = (db, mkResponse HTTP_200_OK (Body_TripRead view)).
Proof.
  intros Hreach.
  pose proof (trip_ids_unique db (reachable_consistent db Hreach)) as ND.
  destruct (list_trips_eq u db) as (views & E & Hviews).
  exists views. split; [unfold app; now rewrite E|].
  intros view. rewrite Hviews. split.
  - intros (t & Hin & Hacc & ->).
    change (TripRead.id (composeRead db t)) with (Trip.id t).
    apply (access_check db (User.id u) (Trip.id t) t eq_refl) in Hacc.
    unfold_handlers. simpl.
    rewrite (session_get_Trip_unique db t ND Hin), Hacc. reflexivity.
  - unfold_handlers. simpl.
    destruct (session_get_Trip db (TripRead.id view)) as [t|] eqn:Hget;
      simpl; [|discriminate].
    destruct (session_get_Trip_Some _ _ _ Hget) as [Hin Eid].
    destruct (negb (Trip.owner_id t =? User.id u)
              && negb (_user_has_access db (User.id u) (TripRead.id view)))
      eqn:Hacc; simpl; [discriminate|].
    intros Heq. injection Heq as Hview.
    exists t. split; [exact Hin|]. split.
    + now apply (access_check db (User.id u) (TripRead.id view) t Eid).
    + rewrite <- Hview at 1. unfold composeRead. now rewrite Eid.
Qed.

(** X18. GET /trips always answers 200, and its list is empty exactly
    when the user owns no stored trip and holds no share on one. *)
Theorem list_trips_empty_iff now db u :
  exists views,
    app now (GET_trips u) db
    = (db, mkResponse HTTP_200_OK (Body_TripRead_list views))
    /\ (views = []
        <-> forall t, In t (trips db) -> ~ owner_or_shared db (User.id u) t).
Proof.
  destruct (list_trips_eq u db) as (views & E & Hviews).
  exists views. split; [unfold app; now rewrite E|]. split.
  - intros -> t Hin Hacc.
    apply (proj2 (Hviews (composeRead db t))). eauto.
  - intros Hnone. destruct views as [|view views]; [reflexivity|].
    exfalso. destruct (proj1 (Hviews view)) as (t & Hin & Hacc & _).
    + now left.
    + exact (Hnone t Hin Hacc).
Qed.

(** ** Access over time *)

Lemma find_app_Some {A} (f : A -> bool) (l l' : list A) (x : A) :
  find f l = Some x -> find f (l ++ l') = Some x.
Proof.
  induction l as [|a l IH]; simpl; [discriminate|].
  destruct (f a); [auto|exact IH].
Qed.

Lemma access_step now request db user_id trip_id t :
  session_get_Trip db trip_id = Some t ->
  owner_or_shared db user_id t ->
  session_get_Trip (fst (app now request db)) trip_id = Some t
  /\ owner_or_shared (fst (app now request db)) user_id t.
Proof.
  intros Hget Hacc.
  destruct (app_extends now request db)
    as (_ & [ts Et] & _ & _ & [ss Es]).
  split.
  - unfold session_get_Trip in *. rewrite Et. now apply find_app_Some.
  - destruct Hacc as [Ho|(s & Hs & E1 & E2)]; [now left|right].
    exists s. rewrite Es. split; [apply in_or_app; now left|auto].
Qed.

(** X19. Access is never revoked: a user who is the owner of a trip or
    holds a share on it still is after any further sequence of requests,
    the trip is still found under its id with the same stored row, and the
    user's GET /trips/{id} still succeeds. *)
Theorem access_is_never_revoked now reqs db u trip_id t :
  session_get_Trip db trip_id = Some t ->
  owner_or_shared db (User.id u) t ->
  session_get_Trip (run reqs db) trip_id = Some t
  /\ owner_or_shared (run reqs db) (User.id u) t
  /\ is_success (snd (app now (GET_trips_id u trip_id) (run reqs db))) = true.
Proof.
  revert db. induction reqs as [|[now0 request] reqs IH]; intros db Hget Hacc.
  - simpl. split; [exact Hget|]. split; [exact Hacc|].
    destruct (session_get_Trip_Some _ _ _ Hget) as [_ Eid].
    apply (access_check db (User.id u) trip_id t Eid) in Hacc.
    unfold_handlers. simpl. rewrite Hget, Hacc. reflexivity.
  - simpl. destruct (access_step now0 request db (User.id u) trip_id t
                       Hget Hacc) as [Hget' Hacc'].
    exact (IH _ Hget' Hacc').
Qed.

(** X20. What one reader appends, every reader sees: after an authorized
    POST /trips/{id}/flights, the GET /trips/{id} of any user who is the
    owner or a share target answers 200 with a view whose flight list ends
    with the flight just added. *)
Theorem appended_flight_visible_to_readers
  now now' db u reader trip_id t flight :
  session_get_Trip db trip_id = Some t ->
  owner_or_shared db (User.id u) t ->
  owner_or_shared db (User.id reader) t ->
  let db' := fst (app now (POST_trips_id_flights u trip_id flight) db) in
  exists view earlier,
    app now' (GET_trips_id reader trip_id) db'
    = (db', mkResponse HTTP_200_OK (Body_TripRead view))
    /\ TripRead.flights view
       = earlier
         ++ [FlightRead.Build (next_id (map Flight.id (flights db)))
               (FlightCreate.airline flight)
               (FlightCreate.departure_airport flight)
               (FlightCreate.arrival_airport flight)
               (FlightCreate.departure_time flight)
               (FlightCreate.arrival_time flight)].
Proof.
  intros Hget Hacc Hreader db'.
  destruct (session_get_Trip_Some _ _ _ Hget) as [_ Eid].
  destruct (access_step now (POST_trips_id_flights u trip_id flight) db
              (User.id reader) trip_id t Hget Hreader) as [Hget' Hreader'].
  fold db' in Hget', Hreader'.
  apply (access_check db' (User.id reader) trip_id t Eid) in Hreader'.
  apply (access_check db (User.id u) trip_id t Eid) in Hacc.
  assert (Efl : flights db'
                = flights db
                  ++ [Flight.Build (next_id (map Flight.id (flights db)))
                        trip_id (FlightCreate.airline flight)
                        (FlightCreate.departure_airport flight)
                        (FlightCreate.arrival_airport flight)
                        (FlightCreate.departure_time flight)
                        (FlightCreate.arrival_time flight)]).
  { subst db'. unfold app. rewrite add_flight_eq, Hget, Hacc. reflexivity. }
  eexists. eexists. split.
  - unfold_handlers. simpl. rewrite Hget', Hreader'. reflexivity.
  - unfold _trip_to_read, _fetch_flights. simpl. rewrite Efl.
    rewrite filter_app, map_app. simpl. rewrite Z.eqb_refl. simpl.
    reflexivity.
Qed.

(** X21. Creating a trip disturbs no stored trip: every trip stored
    before is still found under its id, and its view (fields, flights,
    hotels, share targets) is what it was. *)
Theorem create_trip_leaves_other_trips now db u trip_create t :
  In t (trips db) ->
  let db' := fst (app now (POST_trips u trip_create) db) in
  composeRead db' t = composeRead db t
  /\ (forall trip_id,
         session_get_Trip db trip_id = Some t ->
         session_get_Trip db' trip_id = Some t).
Proof.
  intros Hin db'.
  destruct (create_trip_rows now trip_create u db)
    as (fr & hr & E & F1 & F2 & _).
  assert (Edb : db' = mkDatabase (users db)
                        (trips db
                         ++ [Trip.Build (next_id (map Trip.id (trips db)))
                               (TripCreate.name trip_create) (User.id u)
                               (TripCreate.start_date trip_create)
                               (TripCreate.end_date trip_create) now])
                        (flights db ++ fr) (hotels db ++ hr) (shares db)).
  { subst db'. unfold app. rewrite E. reflexivity. }
  assert (Hne : Trip.id t <> next_id (map Trip.id (trips db))).
  { intros Heq. apply (next_id_fresh (map Trip.id (trips db))).
    rewrite <- Heq. now apply in_map. }
  rewrite Edb. split.
  - unfold composeRead, _trip_to_read, _fetch_flights, _fetch_hotels,
      _fetch_share_ids. simpl. rewrite !filter_app.
    rewrite (filter_nil_iff _ fr), (filter_nil_iff _ hr).
    + now rewrite !app_nil_r.
    + rewrite Forall_forall in F2. intros h Hh. apply Z.eqb_neq.
      rewrite (F2 h Hh). simpl. now apply not_eq_sym.
    + rewrite Forall_forall in F1. intros f Hf. apply Z.eqb_neq.
      rewrite (F1 f Hf). simpl. now apply not_eq_sym.
  - intros trip_id Hget. unfold session_get_Trip in *. simpl.
    now apply find_app_Some.
Qed.

End Routes.

(** ** The end-to-end scenario, on a concrete instance of auth.py

    alice registers, logs in and creates the trip "Paris" with one flight
    and one hotel; bob registers and alice shares the trip with him;
    carol registers and has no part in the trip. *)

Definition example_get_password_hash (password : string) : string :=
  String.append "salted:" password.

Definition example_verify_password (password hashed : string) : bool :=
  String.eqb (example_get_password_hash password) hashed.

Definition example_create_access_token (user_id : Z) : string := "token".

Definition example_app : datetime -> Request -> Database -> Database * Response :=
  app example_get_password_hash example_verify_password
      example_create_access_token.

Definition example_run : list (datetime * Request) -> Database -> Database :=
  run example_get_password_hash example_verify_password
      example_create_access_token.

Definition example_reachable : Database -> Prop :=
  reachable example_get_password_hash example_verify_password
            example_create_access_token.

Definition alice : User.t :=
  User.Build 1 "alice@example.com" "salted:password123" 0.

Definition bob : User.t :=
  User.Build 2 "bob@example.com" "salted:password123" 3.

Definition carol : User.t :=
  User.Build 3 "carol@example.com" "salted:password123" 4.

Definition paris : Trip.t := Trip.Build 1 "Paris" 1 None None 2.

Definition paris_create : TripCreate.t :=
  TripCreate.Build "Paris" None None
    [FlightCreate.Build "AF" "JFK" "CDG" 100 200]
    [HotelCreate.Build "Ritz" "Paris" 10 12].

Definition before_sharing : list (datetime * Request) :=
  [(0, POST_auth_register
         (UserCreate.Build "alice@example.com" "password123"));
   (1, POST_auth_login
         (OAuth2PasswordRequestForm.Build "alice@example.com" "password123"));
   (2, POST_trips alice paris_create);
   (3, POST_auth_register (UserCreate.Build "bob@example.com" "password123"));
   (4, POST_auth_register
         (UserCreate.Build "carol@example.com" "password123"))].

Definition scenario : list (datetime * Request) :=
  before_sharing
  ++ [(5, POST_trips_id_share alice 1 (ShareRequest.Build "bob@example.com"))].

Definition unshared_db : Database := example_run before_sharing empty_db.

Definition scenario_db : Database := example_run scenario empty_db.

Lemma unshared_db_reachable : example_reachable unshared_db.
Proof.
  apply run_reachable. constructor.
Defined.

Lemma scenario_db_reachable : example_reachable scenario_db.
Proof.
  apply run_reachable. constructor.
Defined.

Lemma scenario_get_paris : session_get_Trip scenario_db 1 = Some paris.
Proof. reflexivity. Defined.

Lemma scenario_bob_shared : owner_or_shared scenario_db (User.id bob) paris.
Proof.
  right. exists (TripShare.Build 1 2 5). simpl. auto.
Defined.

Lemma scenario_carol_denied :
  ~ owner_or_shared scenario_db (User.id carol) paris.
Proof.
  intros [H|(s & Hin & _ & H)].
  - discriminate H.
  - simpl in Hin. destruct Hin as [<-|[]]. discriminate H.
Defined.

Lemma trip_access_iff_owner_or_shared_witness :
  session_get_Trip scenario_db 1 = Some paris
  /\ is_success (snd (example_app 9 (GET_trips_id bob 1) scenario_db)) = true
  /\ is_success
       (snd (example_app 9
               (POST_trips_id_flights bob 1
                  (FlightCreate.Build "BA" "CDG" "LHR" 300 400))
               scenario_db)) = true
  /\ is_success
       (snd (example_app 9
               (POST_trips_id_hotels carol 1
                  (HotelCreate.Build "Savoy" "London" 12 14))
               scenario_db)) = false.
Proof.
  split; [exact scenario_get_paris|].
  split; [|split].
  - apply (trip_access_iff_owner_or_shared
             example_get_password_hash example_verify_password
             example_create_access_token 9 scenario_db bob 1 paris
             (FlightCreate.Build "BA" "CDG" "LHR" 300 400)
             (HotelCreate.Build "Savoy" "London" 12 14) scenario_get_paris).
    exact scenario_bob_shared.
  - apply (trip_access_iff_owner_or_shared
             example_get_password_hash example_verify_password
             example_create_access_token 9 scenario_db bob 1 paris
             (FlightCreate.Build "BA" "CDG" "LHR" 300 400)
             (HotelCreate.Build "Savoy" "London" 12 14) scenario_get_paris).
    exact scenario_bob_shared.
  - reflexivity.
Defined.

Lemma missing_trip_404_before_forbidden_403_witness :
  (forall t, In t (trips scenario_db) -> Trip.id t <> 7)
  /\ example_app 9 (GET_trips_id carol 7) scenario_db
     = (scenario_db,
        mkResponse HTTP_404_NOT_FOUND (Body_detail "Trip not found"))
  /\ session_get_Trip scenario_db 1 = Some paris
  /\ ~ owner_or_shared scenario_db (User.id carol) paris
  /\ response_status
       (snd (example_app 9
               (POST_trips_id_share carol 1
                  (ShareRequest.Build "bob@example.com")) scenario_db))
     = HTTP_403_FORBIDDEN.
Proof.
  assert (Hnone : forall t, In t (trips scenario_db) -> Trip.id t <> 7).
  { intros t Hin. simpl in Hin. destruct Hin as [<-|[]]. discriminate. }
  split; [exact Hnone|]. split.
  - apply (proj1 (missing_trip_404_before_forbidden_403
                    example_get_password_hash example_verify_password
                    example_create_access_token 9 scenario_db carol 7
                    (ShareRequest.Build "bob@example.com")
                    (FlightCreate.Build "BA" "CDG" "LHR" 300 400)
                    (HotelCreate.Build "Savoy" "London" 12 14)) Hnone).
    simpl. auto.
  - split; [exact scenario_get_paris|].
    split; [exact scenario_carol_denied|].
    apply (proj2 (missing_trip_404_before_forbidden_403
                    example_get_password_hash example_verify_password
                    example_create_access_token 9 scenario_db carol 1
                    (ShareRequest.Build "bob@example.com")
                    (FlightCreate.Build "BA" "CDG" "LHR" 300 400)
                    (HotelCreate.Build "Savoy" "London" 12 14))
                 paris scenario_get_paris scenario_carol_denied).
    simpl. auto.
Defined.

Lemma reachable_shares_unique_and_never_owner_witness :
  example_reachable scenario_db
  /\ (List.length (share_rows scenario_db 1 2) <= 1)%nat
  /\ (forall s t,
         In s (shares scenario_db) -> In t (trips scenario_db) ->
         Trip.id t = TripShare.trip_id s ->
         TripShare.user_id s <> Trip.owner_id t).
Proof.
  split; [exact scenario_db_reachable|].
  destruct (reachable_shares_unique_and_never_owner
              example_get_password_hash example_verify_password
              example_create_access_token scenario_db scenario_db_reachable)
    as [Hunique Hnot_owner].
  split; [apply Hunique|exact Hnot_owner].
Defined.

Lemma share_twice_idempotent_witness :
  example_reachable unshared_db
  /\ session_get_Trip unshared_db 1 = Some paris
  /\ Trip.owner_id paris = User.id alice
  /\ In bob (users unshared_db)
  /\ User.id bob <> User.id alice
  /\ snd (example_app 6
            (POST_trips_id_share alice 1
               (ShareRequest.Build (User.email bob)))
            (fst (example_app 5
                    (POST_trips_id_share alice 1
                       (ShareRequest.Build (User.email bob)))
                    unshared_db)))
     = mkResponse HTTP_204_NO_CONTENT Body_empty
  /\ List.length
       (share_rows
          (fst (example_app 6
                  (POST_trips_id_share alice 1
                     (ShareRequest.Build (User.email bob)))
                  (fst (example_app 5
                          (POST_trips_id_share alice 1
                             (ShareRequest.Build (User.email bob)))
                          unshared_db))))
          1 (User.id bob)) = 1%nat.
Proof.
  assert (Hget : session_get_Trip unshared_db 1 = Some paris)
    by reflexivity.
  assert (Hown : Trip.owner_id paris = User.id alice) by reflexivity.
  assert (Hin : In bob (users unshared_db)) by (simpl; auto).
  assert (Hne : User.id bob <> User.id alice) by discriminate.
  destruct (share_twice_idempotent
              example_get_password_hash example_verify_password
              example_create_access_token 5 6 unshared_db alice bob 1 paris
              unshared_db_reachable Hget Hown Hin Hne)
    as (_ & Hsecond & _ & Hone).
  split; [exact unshared_db_reachable|]. split; [exact Hget|].
  split; [exact Hown|]. split; [exact Hin|]. split; [exact Hne|].
  split; [exact Hsecond|exact Hone].
Defined.

(* A store in which alice owns the trip "Paris" and is also a share
   target of it, and bob has shared his trip "Rome" with her. *)
Definition rome : Trip.t := Trip.Build 2 "Rome" 2 None None 6.

Definition self_shared_db : Database :=
  mkDatabase [alice; bob] [paris; rome] [] []
             [TripShare.Build 1 1 7; TripShare.Build 2 1 8].

Lemma self_shared_db_trip_ids : NoDup (map Trip.id (trips self_shared_db)).
Proof.
  simpl. repeat constructor; simpl; intuition discriminate.
Defined.

Lemma self_shared_db_lists_paris_once :
  example_app 9 (GET_trips alice) self_shared_db
  = (self_shared_db,
     mkResponse HTTP_200_OK
       (Body_TripRead_list
          [composeRead self_shared_db paris;
           composeRead self_shared_db rome])).
Proof. reflexivity. Qed.

Lemma list_trips_owned_then_shared_witness :
  NoDup (map Trip.id (trips self_shared_db))
  /\ Trip.owner_id paris = User.id alice
  /\ share_exists self_shared_db (Trip.id paris) (User.id alice)
  /\ exists owned shared_only,
      example_app 9 (GET_trips alice) self_shared_db
      = (self_shared_db,
         mkResponse HTTP_200_OK
           (Body_TripRead_list
              (map (composeRead self_shared_db) (owned ++ shared_only))))
      /\ owned = [paris]
      /\ (forall t, In t shared_only -> Trip.owner_id t <> User.id alice)
      /\ (forall t,
             In t (owned ++ shared_only)
             <-> In t (trips self_shared_db)
                 /\ owner_or_shared self_shared_db (User.id alice) t)
      /\ NoDup (map TripRead.id
                    (map (composeRead self_shared_db)
                         (owned ++ shared_only))).
Proof.
  split; [exact self_shared_db_trip_ids|]. split; [reflexivity|].
  split; [exists (TripShare.Build 1 1 7); simpl; auto|].
  destruct (list_trips_owned_then_shared
              example_get_password_hash example_verify_password
              example_create_access_token 9 self_shared_db alice
              self_shared_db_trip_ids)
    as (owned & shared_only & E & Eowned & _ & Hshared & Hunion & Hnodup).
  exists owned, shared_only.
  split; [exact E|]. split; [exact Eowned|].
  split; [intros t Ht; exact (proj1 (proj2 (proj1 (Hshared t) Ht)))|].
  split; [exact Hunion|exact Hnodup].
Defined.

Lemma readable_trip_view_witness :
  session_get_Trip scenario_db 1 = Some paris
  /\ owner_or_shared scenario_db (User.id bob) paris
  /\ exists view,
      example_app 9 (GET_trips_id bob 1) scenario_db
      = (scenario_db, mkResponse HTTP_200_OK (Body_TripRead view))
      /\ is_view_of scenario_db paris view.
Proof.
  split; [exact scenario_get_paris|].
  split; [exact scenario_bob_shared|].
  exact (proj1 (readable_trip_view
                  example_get_password_hash example_verify_password
                  example_create_access_token 9 scenario_db bob 1 paris
                  (FlightCreate.Build "BA" "CDG" "LHR" 300 400)
                  (HotelCreate.Build "Savoy" "London" 12 14)
                  scenario_get_paris scenario_bob_shared)).
Defined.

Lemma login_failures_indistinguishable_witness :
  (forall u, In u (users scenario_db) -> User.email u <> "mallory@example.com")
  /\ select_User_by_email scenario_db "alice@example.com" = Some alice
  /\ example_verify_password "letmein123" (User.hashed_password alice) = false
  /\ example_app 9
       (POST_auth_login
          (OAuth2PasswordRequestForm.Build "alice@example.com" "letmein123"))
       scenario_db
     = example_app 9
         (POST_auth_login
            (OAuth2PasswordRequestForm.Build "mallory@example.com"
                                             "password123"))
         scenario_db.
Proof.
  assert (Hunknown : forall u, In u (users scenario_db) ->
                               User.email u <> "mallory@example.com").
  { intros u Hin. simpl in Hin.
    destruct Hin as [<-|[<-|[<-|[]]]]; discriminate. }
  assert (Hknown : select_User_by_email scenario_db "alice@example.com"
                   = Some alice) by reflexivity.
  assert (Hwrong : example_verify_password "letmein123"
                     (User.hashed_password alice) = false) by reflexivity.
  split; [exact Hunknown|]. split; [exact Hknown|]. split; [exact Hwrong|].
  exact (proj2 (login_failures_indistinguishable
                  example_get_password_hash example_verify_password
                  example_create_access_token 9 scenario_db
                  (OAuth2PasswordRequestForm.Build "mallory@example.com"
                                                   "password123")
                  (OAuth2PasswordRequestForm.Build "alice@example.com"
                                                   "letmein123")
                  alice Hunknown Hknown Hwrong)).
Defined.

Lemma share_with_self_rejected_witness :
  session_get_Trip scenario_db 1 = Some paris
  /\ select_User_by_email scenario_db "alice@example.com" = Some alice
  /\ response_status
       (snd (example_app 9
               (POST_trips_id_share alice 1
                  (ShareRequest.Build "alice@example.com")) scenario_db))
     = HTTP_400_BAD_REQUEST
  /\ shares
       (fst (example_app 9
               (POST_trips_id_share alice 1
                  (ShareRequest.Build "alice@example.com")) scenario_db))
     = shares scenario_db.
Proof.
  assert (Hsel : select_User_by_email scenario_db "alice@example.com"
                 = Some alice) by reflexivity.
  destruct (share_with_self_rejected
              example_get_password_hash example_verify_password
              example_create_access_token 9 scenario_db alice 1 paris
              (ShareRequest.Build "alice@example.com") alice
              scenario_get_paris Hsel eq_refl)
    as (_ & _ & Hshares & Howner & _).
  split; [exact scenario_get_paris|]. split; [exact Hsel|].
  split; [exact (Howner eq_refl)|exact Hshares].
Defined.

Lemma register_duplicate_email_rejected_witness :
  In alice (users scenario_db)
  /\ User.email alice = "alice@example.com"
  /\ example_app 9
       (POST_auth_register (UserCreate.Build "alice@example.com" "another-pass"))
       scenario_db
     = (scenario_db,
        mkResponse HTTP_400_BAD_REQUEST
                   (Body_detail "Email already registered")).
Proof.
  assert (Hin : In alice (users scenario_db)) by (simpl; auto).
  split; [exact Hin|]. split; [reflexivity|].
  destruct (register_duplicate_email_rejected
              example_get_password_hash example_verify_password
              example_create_access_token 9 scenario_db
              (UserCreate.Build "alice@example.com" "another-pass") alice
              Hin eq_refl)
    as (Hresp & Hdb & _).
  rewrite (surjective_pairing (example_app _ _ _)).
  unfold example_app. rewrite Hresp, Hdb. reflexivity.
Defined.

(** ** The further properties on the scenario *)

Definition london_flight : FlightCreate.t :=
  FlightCreate.Build "BA" "CDG" "LHR" 300 400.

Definition london_hotel : HotelCreate.t :=
  HotelCreate.Build "Savoy" "London" 12 14.

Lemma example_verify_own_hash password :
  example_verify_password password (example_get_password_hash password)
  = true.
Proof. apply String.eqb_refl. Defined.

Lemma scenario_no_dave u :
  In u (users scenario_db) -> User.email u <> "dave@example.com".
Proof.
  intros Hin. simpl in Hin.
  destruct Hin as [<-|[<-|[<-|[]]]]; discriminate.
Defined.

Lemma failed_request_leaves_store_witness :
  is_success (snd (example_app 9 (GET_trips_id carol 1) scenario_db)) = false
  /\ fst (example_app 9 (GET_trips_id carol 1) scenario_db) = scenario_db.
Proof.
  assert (Hfail : is_success
                    (snd (example_app 9 (GET_trips_id carol 1) scenario_db))
                  = false) by reflexivity.
  split; [exact Hfail|].
  exact (failed_request_leaves_store
           example_get_password_hash example_verify_password
           example_create_access_token 9 (GET_trips_id carol 1) scenario_db
           Hfail).
Defined.

Lemma register_new_email_creates_user_witness :
  (forall u, In u (users scenario_db) -> User.email u <> "dave@example.com")
  /\ select_User_by_email
       (fst (example_app 9
               (POST_auth_register
                  (UserCreate.Build "dave@example.com" "password123"))
               scenario_db))
       "dave@example.com"
     = Some (User.Build 4 "dave@example.com" "salted:password123" 9).
Proof.
  split; [exact scenario_no_dave|].
  exact (proj2 (proj2 (register_new_email_creates_user
                         example_get_password_hash example_verify_password
                         example_create_access_token 9 scenario_db
                         (UserCreate.Build "dave@example.com" "password123")
                         scenario_no_dave))).
Defined.

Lemma register_then_login_witness :
  (forall password,
      example_verify_password password
        (example_get_password_hash password) = true)
  /\ (forall u, In u (users scenario_db) ->
                User.email u <> "dave@example.com")
  /\ example_app 10
       (POST_auth_login
          (OAuth2PasswordRequestForm.Build "dave@example.com" "password123"))
       (fst (example_app 9
               (POST_auth_register
                  (UserCreate.Build "dave@example.com" "password123"))
               scenario_db))
     = (fst (example_app 9
               (POST_auth_register
                  (UserCreate.Build "dave@example.com" "password123"))
               scenario_db),
        mkResponse HTTP_200_OK (Body_Token (Token.Build "token" "bearer"))).
Proof.
  split; [exact example_verify_own_hash|].
  split; [exact scenario_no_dave|].
  exact (proj1 (register_then_login
                  example_get_password_hash example_verify_password
                  example_create_access_token 9 10 scenario_db
                  (UserCreate.Build "dave@example.com" "password123")
                  example_verify_own_hash scenario_no_dave)).
Defined.

Lemma reachable_references_resolve_witness :
  example_reachable scenario_db
  /\ (forall f, In f (flights scenario_db) ->
                exists t, In t (trips scenario_db)
                          /\ Trip.id t = Flight.trip_id f).
Proof.
  split; [exact scenario_db_reachable|].
  exact (proj1 (reachable_references_resolve
                  example_get_password_hash example_verify_password
                  example_create_access_token scenario_db
                  scenario_db_reachable)).
Defined.

Lemma reachable_keys_unique_witness :
  example_reachable scenario_db
  /\ NoDup (map User.email (users scenario_db)).
Proof.
  split; [exact scenario_db_reachable|].
  exact (proj1 (proj2 (reachable_keys_unique
                         example_get_password_hash example_verify_password
                         example_create_access_token scenario_db
                         scenario_db_reachable))).
Defined.

Lemma create_trip_then_get_witness :
  example_reachable scenario_db
  /\ exists view,
      snd (example_app 9 (POST_trips bob paris_create) scenario_db)
      = mkResponse HTTP_201_CREATED (Body_TripRead view)
      /\ example_app 10 (GET_trips_id bob (TripRead.id view))
           (fst (example_app 9 (POST_trips bob paris_create) scenario_db))
         = (fst (example_app 9 (POST_trips bob paris_create) scenario_db),
            mkResponse HTTP_200_OK (Body_TripRead view)).
Proof.
  split; [exact scenario_db_reachable|].
  destruct (create_trip_then_get
              example_get_password_hash example_verify_password
              example_create_access_token 9 10 scenario_db bob paris_create
              scenario_db_reachable)
    as (view & Hcreated & Hread & _).
  exists view. split; [exact Hcreated|exact Hread].
Defined.

Lemma share_with_unknown_email_404_witness :
  session_get_Trip scenario_db 1 = Some paris
  /\ Trip.owner_id paris = User.id alice
  /\ (forall u, In u (users scenario_db) ->
                User.email u <> "dave@example.com")
  /\ example_app 9
       (POST_trips_id_share alice 1 (ShareRequest.Build "dave@example.com"))
       scenario_db
     = (scenario_db,
        mkResponse HTTP_404_NOT_FOUND
                   (Body_detail "User to share with was not found")).
Proof.
  split; [exact scenario_get_paris|]. split; [reflexivity|].
  split; [exact scenario_no_dave|].
  exact (share_with_unknown_email_404
           example_get_password_hash example_verify_password
           example_create_access_token 9 scenario_db alice 1 paris
           (ShareRequest.Build "dave@example.com")
           scenario_get_paris eq_refl scenario_no_dave).
Defined.

Lemma share_then_target_reads_witness :
  example_reachable unshared_db
  /\ session_get_Trip unshared_db 1 = Some paris
  /\ In bob (users unshared_db)
  /\ User.id bob <> User.id alice
  /\ In (User.id bob)
        (TripRead.shared_with_user_ids
           (composeRead
              (fst (example_app 5
                      (POST_trips_id_share alice 1
                         (ShareRequest.Build (User.email bob)))
                      unshared_db))
              paris)).
Proof.
  assert (Hget : session_get_Trip unshared_db 1 = Some paris)
    by reflexivity.
  assert (Hin : In bob (users unshared_db)) by (simpl; auto).
  assert (Hne : User.id bob <> User.id alice) by discriminate.
  split; [exact unshared_db_reachable|]. split; [exact Hget|].
  split; [exact Hin|]. split; [exact Hne|].
  exact (proj1 (proj2 (share_then_target_reads
                         example_get_password_hash example_verify_password
                         example_create_access_token 5 6 unshared_db alice
                         bob 1 paris unshared_db_reachable Hget eq_refl Hin
                         Hne))).
Defined.

Lemma add_flight_extends_view_witness :
  session_get_Trip scenario_db 1 = Some paris
  /\ owner_or_shared scenario_db (User.id bob) paris
  /\ forall f, In f (flights scenario_db) -> Flight.id f <> 2.
Proof.
  split; [exact scenario_get_paris|]. split; [exact scenario_bob_shared|].
  exact (proj1 (proj2 (add_flight_extends_view
                         example_get_password_hash example_verify_password
                         example_create_access_token 9 scenario_db bob 1
                         paris london_flight scenario_get_paris
                         scenario_bob_shared))).
Defined.

Lemma add_hotel_extends_view_witness :
  session_get_Trip scenario_db 1 = Some paris
  /\ owner_or_shared scenario_db (User.id bob) paris
  /\ forall h, In h (hotels scenario_db) -> Hotel.id h <> 2.
Proof.
  split; [exact scenario_get_paris|]. split; [exact scenario_bob_shared|].
  exact (proj1 (proj2 (add_hotel_extends_view
                         example_get_password_hash example_verify_password
                         example_create_access_token 9 scenario_db bob 1
                         paris london_hotel scenario_get_paris
                         scenario_bob_shared))).
Defined.

Lemma list_trips_agrees_with_get_trip_witness :
  example_reachable scenario_db
  /\ exists views,
      example_app 9 (GET_trips bob) scenario_db
      = (scenario_db, mkResponse HTTP_200_OK (Body_TripRead_list views))
      /\ forall view,
          In view views
          <-> example_app 9 (GET_trips_id bob (TripRead.id view)) scenario_db
              = (scenario_db, mkResponse HTTP_200_OK (Body_TripRead view)).
Proof.
  split; [exact scenario_db_reachable|].
  exact (list_trips_agrees_with_get_trip
           example_get_password_hash example_verify_password
           example_create_access_token 9 scenario_db bob
           scenario_db_reachable).
Defined.

Lemma access_is_never_revoked_witness :
  session_get_Trip unshared_db 1 = Some paris
  /\ owner_or_shared unshared_db (User.id alice) paris
  /\ is_success
       (snd (example_app 9 (GET_trips_id alice 1)
               (example_run
                  [(5, POST_trips_id_share alice 1
                         (ShareRequest.Build "bob@example.com"));
                   (6, POST_trips_id_flights bob 1 london_flight)]
                  unshared_db))) = true.
Proof.
  assert (Hget : session_get_Trip unshared_db 1 = Some paris)
    by reflexivity.
  assert (Hacc : owner_or_shared unshared_db (User.id alice) paris)
    by (left; reflexivity).
  split; [exact Hget|]. split; [exact Hacc|].
  exact (proj2 (proj2 (access_is_never_revoked
                         example_get_password_hash example_verify_password
                         example_create_access_token 9
                         [(5, POST_trips_id_share alice 1
                                (ShareRequest.Build "bob@example.com"));
                          (6, POST_trips_id_flights bob 1 london_flight)]
                         unshared_db alice 1 paris Hget Hacc))).
Defined.

Lemma appended_flight_visible_to_readers_witness :
  session_get_Trip scenario_db 1 = Some paris
  /\ owner_or_shared scenario_db (User.id bob) paris
  /\ owner_or_shared scenario_db (User.id alice) paris
  /\ exists view earlier,
      example_app 10 (GET_trips_id alice 1)
        (fst (example_app 9 (POST_trips_id_flights bob 1 london_flight)
                scenario_db))
      = (fst (example_app 9 (POST_trips_id_flights bob 1 london_flight)
                scenario_db),
         mkResponse HTTP_200_OK (Body_TripRead view))
      /\ TripRead.flights view
         = earlier ++ [FlightRead.Build 2 "BA" "CDG" "LHR" 300 400].
Proof.
  assert (Howner : owner_or_shared scenario_db (User.id alice) paris)
    by (left; reflexivity).
  split; [exact scenario_get_paris|]. split; [exact scenario_bob_shared|].
  split; [exact Howner|].
  exact (appended_flight_visible_to_readers
           example_get_password_hash example_verify_password
           example_create_access_token 9 10 scenario_db bob alice 1 paris
           london_flight scenario_get_paris scenario_bob_shared Howner).
Defined.

Lemma create_trip_leaves_other_trips_witness :
  In paris (trips scenario_db)
  /\ composeRead
       (fst (example_app 9 (POST_trips bob paris_create) scenario_db)) paris
     = composeRead scenario_db paris.
Proof.
  assert (Hin : In paris (trips scenario_db)) by (simpl; auto).
  split; [exact Hin|].
  exact (proj1 (create_trip_leaves_other_trips
                  example_get_password_hash example_verify_password
                  example_create_access_token 9 scenario_db bob paris_create
                  paris Hin)).
Defined.
